(** * Financial calculators: amortization, pension projection, purchasing power

    A shallow embedding of the calculation core of the calculator pages
    (mortgage payment, pension projection, purchasing power) and the
    properties their specification states about them.

    Number model.  The calculations are embedded twice.

    - The exact reading: a JavaScript [number] is an exact rational ([Q],
      compared with [==]) and no operation rounds.  A division whose divisor
      is zero yields [NaN] or an infinity in JavaScript; it is modelled by
      [None] ([jsdiv]).  This reading carries the properties that relate the
      figures the code computes by a fixed number of well-conditioned steps,
      which hold of the doubles up to rounding.
    - The binary64 reading ([Binary64], [Mortgage64], [Pension64]): a
      [number] is an IEEE 754 double and every operation rounds to nearest,
      overflows to an infinity and propagates [NaN].  This reading decides
      the properties that rounding, cancellation or overflow can break.

    Integer-valued form fields (years, ages, loan term: all read with
    [parseInt]) are modelled in [Z]. *)

From Stdlib Require Import ZArith QArith Qpower Qfield Qminmax Lia Lra Psatz List Bool Ascii.
From Stdlib Require SpecFloat.
From stdpp Require Import base option gmap strings.

Local Open Scope Q_scope.

(** ** JavaScript number operations *)

Module JsNum.

(** [a < b] on numbers. *)
Definition Qlt_bool (a b : Q) : bool := negb (Qle_bool b a).

(** [a / b] in the exact reading; [None] stands for the non-finite value
    JavaScript produces when [b] is zero (a divisor that is zero only after
    rounding is the matter of [Binary64.fdiv]). *)
Definition jsdiv (a b : Q) : option Q :=
  if Qeq_bool b 0 then None else Some (a / b).

(** [Math.pow(x, n)] for an integer exponent, in the exact reading: the
    power itself, which is never too large to be a number (for overflow see
    [Binary64.Math_pow]). *)
Definition Math_pow (x : Q) (n : Z) : Q := x ^ n.

(** [o] is the finite number [v]. *)
Definition returns (o : option Q) (v : Q) : Prop :=
  exists q, o = Some q /\ q == v.

End JsNum.
Import JsNum.

(** ** Mortgage payment page *)

Module Mortgage.

Record MortgageFormData := {
  homePrice : Q;
  downPayment : Q;
  loanTerm : Z;
  interestRate : Q;
  monthlyOverpayment : Q
}.

Record MortgageResults := {
  monthlyPayment : Q;
  principalAndInterest : Q;
  totalPayment : Q;
  totalInterest : Q;
  loanAmount : Q;
  totalInterestWithOverpayment : Q;
  interestSaved : Q;
  newLoanTermMonths : Z;
  monthsReduced : Z;
  higherRatePayment : Q;
  lowerRatePayment : Q
}.

(** The form's initial state. *)
Definition initialFormData : MortgageFormData :=
  {| homePrice := 250000;
     downPayment := 25000;
     loanTerm := 25;
     interestRate := 45 # 10;
     monthlyOverpayment := 0 |}.

(** The periodic rate and the number of periods both payment routines
    derive from the annual percentage and the term in years. *)
Definition monthlyRateOf (interestRate : Q) : Q := interestRate / 100 / 12.
Definition numberOfPaymentsOf (loanTermYears : Z) : Z := (loanTermYears * 12)%Z.

Definition calculateMonthlyPayment
    (loanAmount interestRate : Q) (loanTermYears : Z) : option Q :=
  let monthlyRate := monthlyRateOf interestRate in
  let numberOfPayments := numberOfPaymentsOf loanTermYears in
  if Qle_bool monthlyRate 0 then
    jsdiv loanAmount (inject_Z numberOfPayments)
  else
    jsdiv (loanAmount *
             (monthlyRate * Math_pow (1 + monthlyRate) numberOfPayments))
          (Math_pow (1 + monthlyRate) numberOfPayments - 1).

(** State of the [while] loop of [calculateWithOverpayment]. *)
Record LoopState := {
  balance : Q;
  month : Z;
  accInterest : Q
}.

Record OverpaymentResult := {
  resTotalInterest : Q;
  months : Z
}.

(** One pass through the loop body. *)
Definition loopBody (monthlyInterestRate regularPayment overpayment : Q)
    (s : LoopState) : LoopState :=
  let interestThisMonth := balance s * monthlyInterestRate in
  let totalInterest := accInterest s + interestThisMonth in
  let principalThisMonth := regularPayment - interestThisMonth in
  let principalThisMonth := principalThisMonth + overpayment in
  let balance' := balance s - principalThisMonth in
  if Qlt_bool balance' 0 then
    {| balance := 0;
       month := (month s + 1)%Z;
       accInterest := totalInterest + balance' * -1 |}
  else
    {| balance := balance';
       month := (month s + 1)%Z;
       accInterest := totalInterest |}.

(** [while (balance > 0 && month < originalTermMonths) body], unrolled at
    most [fuel] times. *)
Fixpoint whileLoop (fuel : nat)
    (monthlyInterestRate regularPayment overpayment : Q)
    (originalTermMonths : Z) (s : LoopState) : LoopState :=
  match fuel with
  | O => s
  | S fuel' =>
      if Qlt_bool 0 (balance s) && (month s <? originalTermMonths)%Z then
        whileLoop fuel' monthlyInterestRate regularPayment overpayment
          originalTermMonths
          (loopBody monthlyInterestRate regularPayment overpayment s)
      else s
  end.

(** [month] starts at 0 and grows by one per pass, so the guard
    [month < originalTermMonths] fails after [originalTermMonths] passes:
    that many unrollings run the loop to its end ([whileLoop_fuel]). *)
Definition calculateWithOverpayment
    (loanAmount monthlyInterestRate regularPayment overpayment : Q)
    (originalTermMonths : Z) : OverpaymentResult :=
  let final :=
    whileLoop (Z.to_nat originalTermMonths)
      monthlyInterestRate regularPayment overpayment originalTermMonths
      {| balance := loanAmount; month := 0; accInterest := 0 |} in
  {| resTotalInterest := accInterest final; months := month final |}.

(** The body of the deferred computation of [calculateMortgage]: the record
    handed to [setResults].  [None] stands for a record holding a non-finite
    number (a payment divided by a zero term). *)
Definition calculateMortgage (formData : MortgageFormData)
    : option MortgageResults :=
  let loanAmount := homePrice formData - downPayment formData in
  let monthlyInterestRate := interestRate formData / 100 / 12 in
  let numberOfPayments := (loanTerm formData * 12)%Z in
  principalAndInterest ←
    (if Qlt_bool 0 monthlyInterestRate then
       jsdiv (loanAmount *
                (monthlyInterestRate *
                   Math_pow (1 + monthlyInterestRate) numberOfPayments))
             (Math_pow (1 + monthlyInterestRate) numberOfPayments - 1)
     else jsdiv loanAmount (inject_Z numberOfPayments));
  let totalMonthlyPayment := principalAndInterest in
  let totalInterest :=
    principalAndInterest * inject_Z numberOfPayments - loanAmount in
  let '(totalInterestWithOverpayment, interestSaved,
        newLoanTermMonths, monthsReduced) :=
    if Qlt_bool 0 (monthlyOverpayment formData) then
      let r := calculateWithOverpayment loanAmount monthlyInterestRate
                 principalAndInterest (monthlyOverpayment formData)
                 numberOfPayments in
      (resTotalInterest r, totalInterest - resTotalInterest r,
       months r, (numberOfPayments - months r)%Z)
    else (totalInterest, 0, numberOfPayments, 0%Z) in
  let higherRate := interestRate formData + 1 in
  let lowerRate := Qmax 0 (interestRate formData - 1) in
  higherRatePayment ←
    calculateMonthlyPayment loanAmount higherRate (loanTerm formData);
  lowerRatePayment ←
    calculateMonthlyPayment loanAmount lowerRate (loanTerm formData);
  Some {| monthlyPayment := totalMonthlyPayment;
          principalAndInterest := principalAndInterest;
          totalPayment := totalMonthlyPayment * inject_Z numberOfPayments;
          totalInterest := totalInterest;
          loanAmount := loanAmount;
          totalInterestWithOverpayment := totalInterestWithOverpayment;
          interestSaved := interestSaved;
          newLoanTermMonths := newLoanTermMonths;
          monthsReduced := monthsReduced;
          higherRatePayment := higherRatePayment;
          lowerRatePayment := lowerRatePayment |}.

End Mortgage.

(** ** The amortization schedule as the specification words it

    These definitions follow the specification, not the code: the interest
    charged in a period is the balance at its start times the periodic
    rate, and the overshoot of a period is the amount by which its principal
    portion exceeds that balance.  They replay the periods the loop of
    [calculateWithOverpayment] runs. *)

Module AmortizationSpec.
Import Mortgage.

Definition sumQ (l : list Q) : Q := fold_right Qplus 0 l.

Definition specInterestOf (rate : Q) (s : LoopState) : Q := balance s * rate.

Definition specOvershootOf (rate payment overpayment : Q) (s : LoopState) : Q :=
  let principalPortion := payment - specInterestOf rate s + overpayment in
  if Qlt_bool (balance s) principalPortion
  then principalPortion - balance s
  else 0.

(** One entry per period run, computed from the state at its start. *)
Fixpoint specSchedule {A : Type} (entry : LoopState -> A) (fuel : nat)
    (rate payment overpayment : Q) (term : Z) (s : LoopState) : list A :=
  match fuel with
  | O => []
  | S fuel' =>
      if Qlt_bool 0 (balance s) && (month s <? term)%Z then
        entry s ::
        specSchedule entry fuel' rate payment overpayment term
          (loopBody rate payment overpayment s)
      else []
  end.

Definition specInterestCharged
    (loanAmount rate payment overpayment : Q) (term : Z) : Q :=
  sumQ (specSchedule (specInterestOf rate) (Z.to_nat term)
          rate payment overpayment term
          {| balance := loanAmount; month := 0; accInterest := 0 |}).

Definition specOvershoot
    (loanAmount rate payment overpayment : Q) (term : Z) : Q :=
  sumQ (specSchedule (specOvershootOf rate payment overpayment)
          (Z.to_nat term) rate payment overpayment term
          {| balance := loanAmount; month := 0; accInterest := 0 |}).

End AmortizationSpec.

(** ** Pension projection page *)

Module Pension.

Record FormData := {
  currentAge : Z;
  retirementAge : Z;
  currentPension : Q;
  monthlyContribution : Q;
  employerContribution : Q;
  stocksAllocation : Q;
  bondsAllocation : Q;
  cashAllocation : Q;
  stocksReturn : Q;
  bondsReturn : Q;
  cashReturn : Q;
  inflationRate : Q
}.

(** An element of [yearlyBreakdown].  [realPensionValue] is a quotient and
    so may be non-finite. *)
Record YearEntry := {
  age : Z;
  year : Z;
  pensionValue : Q;
  realPensionValue : option Q;
  annualContribution : Q;
  annualEmployerContribution : Q;
  annualGrowth : Q;
  stocks : Q;
  bonds : Q;
  cash : Q
}.

Record ProjectionResult := {
  finalPensionNominal : Q;
  finalPensionReal : option Q;
  totalContributions : Q;
  totalEmployerContributions : Q;
  totalInvestmentGrowth : Q;
  yearlyBreakdown : list YearEntry
}.

(** The form's initial state. *)
Definition initialFormData : FormData :=
  {| currentAge := 30;
     retirementAge := 68;
     currentPension := 50000;
     monthlyContribution := 500;
     employerContribution := 300;
     stocksAllocation := 70;
     bondsAllocation := 20;
     cashAllocation := 10;
     stocksReturn := 70 # 10;
     bondsReturn := 30 # 10;
     cashReturn := 15 # 10;
     inflationRate := 20 # 10 |}.

(** The variables the [for] loop of [calculateProjection] updates. *)
Record LoopVars := {
  vPensionValue : Q;
  vTotalContributions : Q;
  vTotalEmployerContributions : Q;
  vTotalGrowth : Q;
  vYearlyBreakdown : list YearEntry
}.

Section Projection.

Variable formData : FormData.
(** [new Date().getFullYear()] *)
Variable currentYear : Z.

Definition yearsToRetirement : Z := (retirementAge formData - currentAge formData)%Z.

Definition weightedReturn : Q :=
  (stocksAllocation formData / 100) * stocksReturn formData +
  (bondsAllocation formData / 100) * bondsReturn formData +
  (cashAllocation formData / 100) * cashReturn formData.

Definition annualContributionOf : Q := monthlyContribution formData * 12.
Definition annualEmployerContributionOf : Q := employerContribution formData * 12.

(** The loop body at counter value [yr]. *)
Definition yearBody (yr : Z) (v : LoopVars) : LoopVars :=
  let age := (currentAge formData + yr)%Z in
  let calendarYear := (currentYear + yr)%Z in
  let yearGrowth :=
    if (0 <? yr)%Z then vPensionValue v * (weightedReturn / 100) else 0 in
  let v1 :=
    if (0 <? yr)%Z then
      {| vPensionValue :=
           vPensionValue v +
           (yearGrowth + annualContributionOf + annualEmployerContributionOf);
         vTotalContributions := vTotalContributions v + annualContributionOf;
         vTotalEmployerContributions :=
           vTotalEmployerContributions v + annualEmployerContributionOf;
         vTotalGrowth := vTotalGrowth v + yearGrowth;
         vYearlyBreakdown := vYearlyBreakdown v |}
    else v in
  let pensionValue := vPensionValue v1 in
  let inflationFactor := Math_pow (1 + inflationRate formData / 100) yr in
  let realPensionValue := jsdiv pensionValue inflationFactor in
  let stocksValue := pensionValue * (stocksAllocation formData / 100) in
  let bondsValue := pensionValue * (bondsAllocation formData / 100) in
  let cashValue := pensionValue * (cashAllocation formData / 100) in
  {| vPensionValue := pensionValue;
     vTotalContributions := vTotalContributions v1;
     vTotalEmployerContributions := vTotalEmployerContributions v1;
     vTotalGrowth := vTotalGrowth v1;
     vYearlyBreakdown :=
       vYearlyBreakdown v1 ++
       [ {| age := age;
            year := calendarYear;
            pensionValue := pensionValue;
            realPensionValue := realPensionValue;
            annualContribution :=
              if (0 <? yr)%Z then annualContributionOf else 0;
            annualEmployerContribution :=
              if (0 <? yr)%Z then annualEmployerContributionOf else 0;
            annualGrowth := yearGrowth;
            stocks := stocksValue;
            bonds := bondsValue;
            cash := cashValue |} ] |}.

(** [for (let year = yr; year <= yearsToRetirement; year++) body], unrolled
    at most [fuel] times. *)
Fixpoint forLoop (fuel : nat) (yr : Z) (v : LoopVars) : LoopVars :=
  match fuel with
  | O => v
  | S fuel' =>
      if (yr <=? yearsToRetirement)%Z
      then forLoop fuel' (yr + 1)%Z (yearBody yr v)
      else v
  end.

(** The body of the deferred computation of [calculateProjection]: [Some]
    of the record handed to [setResults], [None] when the body throws (the
    exception is caught and logged, no result is set).  The counter runs
    over [0 .. yearsToRetirement], so [yearsToRetirement + 1] unrollings run
    the loop to its end. *)
Definition calculateProjection : option ProjectionResult :=
  if (yearsToRetirement <=? 0)%Z then None
  else
    let v :=
      forLoop (Z.to_nat (yearsToRetirement + 1)) 0
        {| vPensionValue := currentPension formData;
           vTotalContributions := currentPension formData;
           vTotalEmployerContributions := 0;
           vTotalGrowth := 0;
           vYearlyBreakdown := [] |} in
    lastEntry ← last (vYearlyBreakdown v);
    Some {| finalPensionNominal := vPensionValue v;
            finalPensionReal := realPensionValue lastEntry;
            totalContributions := vTotalContributions v;
            totalEmployerContributions := vTotalEmployerContributions v;
            totalInvestmentGrowth := vTotalGrowth v;
            yearlyBreakdown := vYearlyBreakdown v |}.

(** The values the loop variables hold after the pass for year [k], and the
    entry that pass appends: the loop body read as recurrences, used to
    state what the loop computes ([forLoop_stateAfter]). *)
Fixpoint valueAt (k : nat) : Q :=
  match k with
  | O => currentPension formData
  | S j =>
      valueAt j +
      (valueAt j * (weightedReturn / 100) + annualContributionOf +
       annualEmployerContributionOf)
  end.

Fixpoint contributionsAt (k : nat) : Q :=
  match k with
  | O => currentPension formData
  | S j => contributionsAt j + annualContributionOf
  end.

Fixpoint employerContributionsAt (k : nat) : Q :=
  match k with
  | O => 0
  | S j => employerContributionsAt j + annualEmployerContributionOf
  end.

Fixpoint growthAt (k : nat) : Q :=
  match k with
  | O => 0
  | S j => growthAt j + valueAt j * (weightedReturn / 100)
  end.

Definition entryAt (k : nat) : YearEntry :=
  {| age := (currentAge formData + Z.of_nat k)%Z;
     year := (currentYear + Z.of_nat k)%Z;
     pensionValue := valueAt k;
     realPensionValue :=
       jsdiv (valueAt k)
             (Math_pow (1 + inflationRate formData / 100) (Z.of_nat k));
     annualContribution :=
       if (0 <? Z.of_nat k)%Z then annualContributionOf else 0;
     annualEmployerContribution :=
       if (0 <? Z.of_nat k)%Z then annualEmployerContributionOf else 0;
     annualGrowth :=
       if (0 <? Z.of_nat k)%Z
       then valueAt (pred k) * (weightedReturn / 100) else 0;
     stocks := valueAt k * (stocksAllocation formData / 100);
     bonds := valueAt k * (bondsAllocation formData / 100);
     cash := valueAt k * (cashAllocation formData / 100) |}.

(** The loop variables on entry to the pass for year [k]. *)
Definition stateBefore (k : nat) : LoopVars :=
  {| vPensionValue := valueAt (pred k);
     vTotalContributions := contributionsAt (pred k);
     vTotalEmployerContributions := employerContributionsAt (pred k);
     vTotalGrowth := growthAt (pred k);
     vYearlyBreakdown := map entryAt (seq 0 k) |}.

End Projection.

(** The validation message: "Asset allocation must total 100% (currently
    [currently]%)". *)
Inductive AllocationError :=
  | AllocationMustTotal100 (currently : Q).

(** The component state the validation reads and writes. *)
Record PageState := {
  results : option ProjectionResult;
  allocationError : option AllocationError
}.

(** The effect run whenever [formData] changes. *)
Definition formDataEffect (currentYear : Z) (formData : FormData)
    (st : PageState) : PageState :=
  let totalAllocation :=
    stocksAllocation formData + bondsAllocation formData +
    cashAllocation formData in
  if negb (Qeq_bool totalAllocation 100) then
    {| results := results st;
       allocationError := Some (AllocationMustTotal100 totalAllocation) |}
  else
    {| results :=
         match calculateProjection formData currentYear with
         | Some r => Some r
         | None => results st
         end;
       allocationError := None |}.

(** The [disabled] attribute of the Calculate button (the transient
    [isCalculating] flag left out) and its click handler. *)
Definition calculateDisabled (formData : FormData) (st : PageState) : bool :=
  match allocationError st with Some _ => true | None => false end
  || (retirementAge formData <=? currentAge formData)%Z.

Definition calculateClick (currentYear : Z) (formData : FormData)
    (st : PageState) : PageState :=
  if calculateDisabled formData st then st
  else
    {| results :=
         match calculateProjection formData currentYear with
         | Some r => Some r
         | None => results st
         end;
       allocationError := allocationError st |}.

End Pension.

(** ** Purchasing power page *)

Module PurchasingPower.

Record FormData := {
  amount : Q;
  startYear : Z;
  endYear : Z
}.

Record BreakdownEntry := {
  entryYear : Z;
  entryAmount : Q;
  entryInflationRate : Q
}.

(** [percentageChange], [inflationFactor] and [averageInflation] are
    computed with a division by [amount]; [None] is a non-finite number. *)
Record PurchasingPowerResult := {
  originalAmount : Q;
  adjustedAmount : Q;
  percentageChange : option Q;
  inflationFactor : option Q;
  averageInflation : option Q;
  yearlyBreakdown : list BreakdownEntry
}.

(** UK inflation data (RPI) from 1980 to 2024, in percent. *)
Definition ukInflationRows : list (Z * Q) :=
  [ (1980, 180 # 10); (1981, 119 # 10); (1982, 86 # 10); (1983, 46 # 10);
    (1984, 50 # 10); (1985, 61 # 10); (1986, 34 # 10); (1987, 42 # 10);
    (1988, 49 # 10); (1989, 78 # 10); (1990, 95 # 10); (1991, 59 # 10);
    (1992, 37 # 10); (1993, 16 # 10); (1994, 24 # 10); (1995, 35 # 10);
    (1996, 24 # 10); (1997, 31 # 10); (1998, 34 # 10); (1999, 15 # 10);
    (2000, 30 # 10); (2001, 18 # 10); (2002, 17 # 10); (2003, 29 # 10);
    (2004, 30 # 10); (2005, 28 # 10); (2006, 32 # 10); (2007, 43 # 10);
    (2008, 40 # 10); (2009, -5 # 10); (2010, 46 # 10); (2011, 52 # 10);
    (2012, 32 # 10); (2013, 30 # 10); (2014, 24 # 10); (2015, 10 # 10);
    (2016, 18 # 10); (2017, 36 # 10); (2018, 33 # 10); (2019, 26 # 10);
    (2020, 15 # 10); (2021, 41 # 10); (2022, 90 # 10); (2023, 67 # 10);
    (2024, 32 # 10) ]%Z.

Definition ukInflationData : gmap Z Q := list_to_map ukInflationRows.

(** [Math.min(...Object.keys(table).map(Number))], for a table that has a
    key. *)
Definition earliestYearOf (table : gmap Z Q) : Z :=
  let keys := (map_to_list table).*1 in
  foldr Z.min (hd 0%Z keys) keys.

(** [table[year] || 2.0]: the fallback also replaces a stored rate of 0,
    which is falsy. *)
Definition rateOrDefault (table : gmap Z Q) (year : Z) : Q :=
  match table !! year with
  | Some rate => if Qeq_bool rate 0 then 2 else rate
  | None => 2
  end.

Section Calculation.

(** The table (the page uses [ukInflationData]), the year
    [new Date().getFullYear()], and [Math.pow] at the fractional exponent
    [1 / yearDiff], which has no rational model. *)
Variable table : gmap Z Q.
Variable currentYear : Z.
Variable Math_pow_root : Q -> Z -> option Q.

Definition earliestYear : Z := earliestYearOf table.

Definition validStartYearOf (formData : FormData) : Z :=
  Z.max earliestYear (Z.min (startYear formData) (endYear formData)).

Definition validEndYearOf (formData : FormData) : Z :=
  Z.min currentYear (Z.max (endYear formData) (validStartYearOf formData)).

(** [for (let year = yr; year <= validEndYear; year++) body], unrolled at
    most [fuel] times; the state is [currentAmount] and the breakdown built
    so far. *)
Fixpoint yearLoop (fuel : nat) (validEndYear yr : Z)
    (currentAmount : Q) (yearlyBreakdown : list BreakdownEntry)
    : Q * list BreakdownEntry :=
  match fuel with
  | O => (currentAmount, yearlyBreakdown)
  | S fuel' =>
      if (yr <=? validEndYear)%Z then
        let inflationRate := rateOrDefault table yr in
        let yearlyBreakdown' :=
          yearlyBreakdown ++
          [ {| entryYear := yr;
               entryAmount := currentAmount;
               entryInflationRate := inflationRate |} ] in
        let currentAmount' :=
          if (yr <? validEndYear)%Z
          then currentAmount * (1 + inflationRate / 100)
          else currentAmount in
        yearLoop fuel' validEndYear (yr + 1)%Z currentAmount' yearlyBreakdown'
      else (currentAmount, yearlyBreakdown)
  end.

(** The body of the deferred computation of [calculatePurchasingPower]:
    [Some] of the record handed to [setResults], [None] when reading the
    last element of an empty breakdown throws. *)
Definition calculatePurchasingPower (formData : FormData)
    : option PurchasingPowerResult :=
  let amount := amount formData in
  let validStartYear := validStartYearOf formData in
  let validEndYear := validEndYearOf formData in
  let '(_, yearlyBreakdown) :=
    yearLoop (Z.to_nat (validEndYear - validStartYear + 1))
      validEndYear validStartYear amount [] in
  lastEntry ← last yearlyBreakdown;
  let adjustedAmount := entryAmount lastEntry in
  let percentageChange :=
    q ← jsdiv (adjustedAmount - amount) amount; Some (q * 100) in
  let yearDiff := (validEndYear - validStartYear)%Z in
  let averageInflation :=
    if (0 <? yearDiff)%Z then
      ratio ← jsdiv adjustedAmount amount;
      root ← Math_pow_root ratio yearDiff;
      Some (root - 1)
    else Some 0 in
  Some {| originalAmount := amount;
          adjustedAmount := adjustedAmount;
          percentageChange := percentageChange;
          inflationFactor := jsdiv adjustedAmount amount;
          averageInflation := a ← averageInflation; Some (a * 100);
          yearlyBreakdown := yearlyBreakdown |}.

(** The running amount after [k] year boundaries from [validStartYear], and
    the entry pushed for the [k]-th year: the loop body read as a
    recurrence, used to state what the loop computes
    ([yearLoop_breakdown]). *)
Fixpoint amountAt (amount : Q) (validStartYear : Z) (k : nat) : Q :=
  match k with
  | O => amount
  | S j =>
      amountAt amount validStartYear j *
      (1 + rateOrDefault table (validStartYear + Z.of_nat j) / 100)
  end.

Definition entryAt (amount : Q) (validStartYear : Z) (k : nat)
    : BreakdownEntry :=
  {| entryYear := (validStartYear + Z.of_nat k)%Z;
     entryAmount := amountAt amount validStartYear k;
     entryInflationRate :=
       rateOrDefault table (validStartYear + Z.of_nat k) |}.

End Calculation.

End PurchasingPower.

(** ** Cursor position after reformatting (the same function on all four
    calculator pages)

    A string is the list of its characters; [oldPosition] is [None] for
    [null]. *)

Module Cursor.

Definition isComma (c : ascii) : bool := Ascii.eqb c ","%char.

(** [(s.match(/,/g) || []).length] *)
Definition countCommas (s : list ascii) : nat := length (List.filter isComma s).

(** The [for] loop over [newValue], from index [i] on, with the characters
    still to visit.  It returns [newPosition] and [newDigitsCounted];
    [newPosition] is 0 unless the loop breaks.  The counter
    [newCommasBefore] is written but never read and is left out. *)
Fixpoint cursorLoop (rest : list ascii) (i newDigitsCounted : nat)
    (oldDigitsBefore : nat) : nat * nat :=
  match rest with
  | [] => (0%nat, newDigitsCounted)
  | c :: rest' =>
      let newDigitsCounted :=
        if negb (isComma c) then S newDigitsCounted else newDigitsCounted in
      if (newDigitsCounted =? oldDigitsBefore)%nat
      then ((i + 1)%nat, newDigitsCounted)
      else cursorLoop rest' (S i) newDigitsCounted oldDigitsBefore
  end.

Definition calculateCursorPosition (value oldValue : list ascii)
    (oldPosition : option nat) (newValue : list ascii) : nat :=
  match oldPosition with
  | None => length newValue
  | Some oldPosition =>
      let oldCommasBefore := countCommas (take oldPosition oldValue) in
      let oldDigitsBefore := (oldPosition - oldCommasBefore)%nat in
      let '(newPosition, newDigitsCounted) :=
        cursorLoop newValue 0 0 oldDigitsBefore in
      if (newDigitsCounted <? oldDigitsBefore)%nat
      then length newValue
      else newPosition
  end.

(** The number of characters of [s] that are not commas. *)
Definition countDigits (s : list ascii) : nat :=
  length (List.filter (fun c => negb (isComma c)) s).

End Cursor.

(** ** Car finance page *)

Module CarFinance.

Record FormData := {
  carPrice : Q;
  deposit : Q;
  loanTerm : Z;
  interestRate : Q;
  balloonPayment : Q;
  financeType : string
}.

Record CarLoanResult := {
  monthlyPayment : Q;
  totalInterest : Q;
  totalCost : Q;
  loanAmount : Q;
  resBalloonPayment : Q;
  apr : Q
}.

(** The form's initial state. *)
Definition initialFormData : FormData :=
  {| carPrice := 20000;
     deposit := 2000;
     loanTerm := 48;
     interestRate := 69 # 10;
     balloonPayment := 0;
     financeType := "hp" |}.

(** The body of the deferred computation of [calculateCarLoan]: the record
    handed to [setResults]; [None] stands for a record holding a non-finite
    number.  The term is in months. *)
Definition calculateCarLoan (formData : FormData) : option CarLoanResult :=
  let carPrice := carPrice formData in
  let deposit := deposit formData in
  let loanTerm := loanTerm formData in
  let interestRate := interestRate formData in
  let balloonPayment := balloonPayment formData in
  let financeType := financeType formData in
  let loanAmount := carPrice - deposit in
  let monthlyInterestRate := interestRate / 100 / 12 in
  monthlyPayment ←
    (if String.eqb financeType "hp" then
       if Qlt_bool 0 monthlyInterestRate then
         jsdiv (loanAmount *
                  (monthlyInterestRate *
                     Math_pow (1 + monthlyInterestRate) loanTerm))
               (Math_pow (1 + monthlyInterestRate) loanTerm - 1)
       else jsdiv loanAmount (inject_Z loanTerm)
     else if String.eqb financeType "pcp" then
       let amountToFinance := loanAmount - balloonPayment in
       if Qlt_bool 0 monthlyInterestRate then
         discounted ←
           jsdiv balloonPayment (Math_pow (1 + monthlyInterestRate) loanTerm);
         jsdiv ((loanAmount - discounted) *
                  (monthlyInterestRate *
                     Math_pow (1 + monthlyInterestRate) loanTerm))
               (Math_pow (1 + monthlyInterestRate) loanTerm - 1)
       else jsdiv amountToFinance (inject_Z loanTerm)
     else Some 0);
  let totalPayments := monthlyPayment * inject_Z loanTerm in
  let totalInterest := totalPayments - (loanAmount - balloonPayment) in
  let totalCost :=
    deposit + totalPayments +
    (if String.eqb financeType "pcp" then balloonPayment else 0) in
  let apr := interestRate * (11 # 10) in
  Some {| monthlyPayment := monthlyPayment;
          totalInterest := totalInterest;
          totalCost := totalCost;
          loanAmount := loanAmount;
          resBalloonPayment := balloonPayment;
          apr := apr |}.

(** The numeric fields [handleAdjustValue] can be called with ([financeType]
    holds a string and no button adjusts it). *)
Inductive NumericField :=
  | CarPriceField | DepositField | LoanTermField
  | InterestRateField | BalloonPaymentField.

(** The [formData] that [handleAdjustValue] sets (the formatted input
    strings it also sets are display only). *)
Definition handleAdjustValue (field : NumericField) (increment : bool)
    (formData : FormData) : FormData :=
  let adjustQ (currentValue step : Q) : Q :=
    if increment then currentValue + step
    else Qmax 0 (currentValue - step) in
  let adjustZ (currentValue step : Z) : Z :=
    if increment then (currentValue + step)%Z
    else Z.max 0 (currentValue - step) in
  match field with
  | CarPriceField =>
      {| carPrice := adjustQ (carPrice formData) 1000;
         deposit := deposit formData; loanTerm := loanTerm formData;
         interestRate := interestRate formData;
         balloonPayment := balloonPayment formData;
         financeType := financeType formData |}
  | DepositField =>
      {| carPrice := carPrice formData;
         deposit := adjustQ (deposit formData) 500;
         loanTerm := loanTerm formData;
         interestRate := interestRate formData;
         balloonPayment := balloonPayment formData;
         financeType := financeType formData |}
  | LoanTermField =>
      {| carPrice := carPrice formData; deposit := deposit formData;
         loanTerm := adjustZ (loanTerm formData) 6%Z;
         interestRate := interestRate formData;
         balloonPayment := balloonPayment formData;
         financeType := financeType formData |}
  | InterestRateField =>
      {| carPrice := carPrice formData; deposit := deposit formData;
         loanTerm := loanTerm formData;
         interestRate := adjustQ (interestRate formData) (1 # 2);
         balloonPayment := balloonPayment formData;
         financeType := financeType formData |}
  | BalloonPaymentField =>
      {| carPrice := carPrice formData; deposit := deposit formData;
         loanTerm := loanTerm formData;
         interestRate := interestRate formData;
         balloonPayment := adjustQ (balloonPayment formData) 500;
         financeType := financeType formData |}
  end.

End CarFinance.

(** ** Mortgage amortization chart *)

Module AmortizationChart.

Record YearlyPaymentData := {
  year : Z;
  principalPaid : Q;
  interestPaid : Q;
  remainingBalance : Q;
  yearlyPrincipalPaid : Q;
  yearlyInterestPaid : Q;
  totalInterestRemaining : Q;
  totalPrincipalRemaining : Q;
  nextYearPrincipalPayment : Q;
  nextYearInterestPayment : Q
}.

(** An element of [yearlyPayments]. *)
Record YearPayment := {
  principal : Q;
  interest : Q
}.

(** The variables the main [for] loop updates. *)
Record ChartState := {
  sRemainingBalance : Q;
  sTotalInterestPaid : Q;
  sTotalPrincipalPaid : Q;
  sIsLoanPaid : bool;
  sYearlyData : list YearlyPaymentData
}.

Section Chart.

(** The component's props; [loanTerm] is in years. *)
Variables (loanAmount interestRate : Q) (loanTerm : Z) (monthlyOverpayment : Q).

Definition monthlyRate : Q := interestRate / 100 / 12.
Definition totalPayments : Z := (loanTerm * 12)%Z.

(** [for (let month = 1; month <= 12; month++)], with [fuel] months left:
    both year loops run this body, one on [currentBalance] and one on
    [remainingBalance].  It returns the balance, the principal and the
    interest paid in the year, and whether it left through a [break] (where
    the second loop sets [isLoanPaid]). *)
Fixpoint monthLoop (monthlyPayment : Q) (fuel : nat)
    (balance yearlyPrincipalPaid yearlyInterestPaid : Q)
    : Q * Q * Q * bool :=
  match fuel with
  | O => (balance, yearlyPrincipalPaid, yearlyInterestPaid, false)
  | S fuel' =>
      if Qle_bool balance 0 then
        (balance, yearlyPrincipalPaid, yearlyInterestPaid, true)
      else
        let interestPayment := balance * monthlyRate in
        let principalPayment := monthlyPayment - interestPayment in
        let principalPayment :=
          if Qlt_bool 0 monthlyOverpayment
          then principalPayment + monthlyOverpayment
          else principalPayment in
        if Qlt_bool balance principalPayment then
          (0, yearlyPrincipalPaid + balance,
           yearlyInterestPaid + interestPayment, true)
        else
          monthLoop monthlyPayment fuel'
            (balance - principalPayment)
            (yearlyPrincipalPaid + principalPayment)
            (yearlyInterestPaid + interestPayment)
  end.

(** The body of the first year loop; it starts from [remainingBalance],
    which that loop never updates. *)
Definition yearPaymentFrom (monthlyPayment currentBalance : Q) : YearPayment :=
  if Qle_bool currentBalance 0 then {| principal := 0; interest := 0 |}
  else
    let '(_, yearlyPrincipalPaid, yearlyInterestPaid, _) :=
      monthLoop monthlyPayment 12 currentBalance 0 0 in
    {| principal := yearlyPrincipalPaid; interest := yearlyInterestPaid |}.

(** [for (let year = yr; year <= loanTerm; year++)], unrolled at most [fuel]
    times. *)
Fixpoint precalcLoop (monthlyPayment remainingBalance : Q) (fuel : nat)
    (yr : Z) (yearlyPayments : list YearPayment) : list YearPayment :=
  match fuel with
  | O => yearlyPayments
  | S fuel' =>
      if (yr <=? loanTerm)%Z then
        precalcLoop monthlyPayment remainingBalance fuel' (yr + 1)%Z
          (yearlyPayments ++ [yearPaymentFrom monthlyPayment remainingBalance])
      else yearlyPayments
  end.

(** The row pushed for a year after the loan is paid off. *)
Definition paidRow (yr : Z) (totalInterestPaid : Q) : YearlyPaymentData :=
  {| year := yr;
     principalPaid := loanAmount;
     interestPaid := totalInterestPaid;
     remainingBalance := 0;
     yearlyPrincipalPaid := 0;
     yearlyInterestPaid := 0;
     totalInterestRemaining := 0;
     totalPrincipalRemaining := 0;
     nextYearPrincipalPayment := 0;
     nextYearInterestPayment := 0 |}.

(** [for (let year = yr; year < loanTerm; year++)], unrolled at most [fuel]
    times; [None] when the body throws (an element of [yearlyPayments] that
    does not exist is read) or a number is not finite. *)
Fixpoint mainLoop (monthlyPayment : Q) (yearlyPayments : list YearPayment)
    (fuel : nat) (yr : Z) (st : ChartState)
    : option (list YearlyPaymentData) :=
  match fuel with
  | O => Some (sYearlyData st)
  | S fuel' =>
      if (yr <? loanTerm)%Z then
        if sIsLoanPaid st then
          mainLoop monthlyPayment yearlyPayments fuel' (yr + 1)%Z
            {| sRemainingBalance := sRemainingBalance st;
               sTotalInterestPaid := sTotalInterestPaid st;
               sTotalPrincipalPaid := sTotalPrincipalPaid st;
               sIsLoanPaid := sIsLoanPaid st;
               sYearlyData :=
                 sYearlyData st ++
                 [paidRow (yr + 1) (sTotalInterestPaid st)] |}
        else
          let '(remainingBalance, yearlyPrincipalPaid, yearlyInterestPaid,
                isLoanPaid) :=
            monthLoop monthlyPayment 12 (sRemainingBalance st) 0 0 in
          let totalPrincipalPaid :=
            sTotalPrincipalPaid st + yearlyPrincipalPaid in
          let totalInterestPaid :=
            sTotalInterestPaid st + yearlyInterestPaid in
          remainingInterest ←
            (if Qlt_bool 0 remainingBalance then
               let remainingMonths := (totalPayments - yr * 12)%Z in
               if (0 <? remainingMonths)%Z && Qlt_bool 0 monthlyRate then
                 newMonthlyPayment ←
                   jsdiv (remainingBalance *
                            (monthlyRate *
                               Math_pow (1 + monthlyRate) remainingMonths))
                         (Math_pow (1 + monthlyRate) remainingMonths - 1);
                 Some (newMonthlyPayment * inject_Z remainingMonths
                       - remainingBalance)
               else Some 0
             else Some 0);
          next ←
            (if (yr <? loanTerm)%Z then yearlyPayments !! Z.to_nat yr
             else Some {| principal := 0; interest := 0 |});
          let yearlyData :=
            sYearlyData st ++
            [ {| year := (yr + 1)%Z;
                 principalPaid := totalPrincipalPaid;
                 interestPaid := totalInterestPaid;
                 remainingBalance := remainingBalance;
                 yearlyPrincipalPaid := yearlyPrincipalPaid;
                 yearlyInterestPaid := yearlyInterestPaid;
                 totalInterestRemaining := remainingInterest;
                 totalPrincipalRemaining := remainingBalance;
                 nextYearPrincipalPayment := principal next;
                 nextYearInterestPayment := interest next |} ] in
          if isLoanPaid && (yr <? loanTerm - 1)%Z then
            Some (yearlyData ++
                  ((fun y : Z => paidRow (y + 1) totalInterestPaid)
                     <$> seqZ (yr + 1) (loanTerm - (yr + 1))))
          else
            mainLoop monthlyPayment yearlyPayments fuel' (yr + 1)%Z
              {| sRemainingBalance := remainingBalance;
                 sTotalInterestPaid := totalInterestPaid;
                 sTotalPrincipalPaid := totalPrincipalPaid;
                 sIsLoanPaid := isLoanPaid;
                 sYearlyData := yearlyData |}
      else Some (sYearlyData st)
  end.

(** [calculateAmortizationData]: the rows of the chart, [None] when the
    function throws or the monthly payment is not finite. *)
Definition calculateAmortizationData : option (list YearlyPaymentData) :=
  monthlyPayment ←
    (if Qlt_bool 0 monthlyRate then
       jsdiv (loanAmount *
                (monthlyRate * Math_pow (1 + monthlyRate) totalPayments))
             (Math_pow (1 + monthlyRate) totalPayments - 1)
     else jsdiv loanAmount (inject_Z totalPayments));
  let totalInterestNoOverpayment :=
    monthlyPayment * inject_Z totalPayments - loanAmount in
  let yearlyPayments :=
    precalcLoop monthlyPayment loanAmount (Z.to_nat loanTerm) 1 [] in
  first ← yearlyPayments !! 0%nat;
  mainLoop monthlyPayment yearlyPayments (Z.to_nat (loanTerm - 1)) 1
    {| sRemainingBalance := loanAmount;
       sTotalInterestPaid := 0;
       sTotalPrincipalPaid := 0;
       sIsLoanPaid := false;
       sYearlyData :=
         [ {| year := 1;
              principalPaid := 0;
              interestPaid := 0;
              remainingBalance := loanAmount;
              yearlyPrincipalPaid := 0;
              yearlyInterestPaid := 0;
              totalInterestRemaining := totalInterestNoOverpayment;
              totalPrincipalRemaining := loanAmount;
              nextYearPrincipalPayment := principal first;
              nextYearInterestPayment := interest first |} ] |}.

(** What every row of the chart satisfies (shown in [chart_rows]): principal
    paid and balance add up to the loan, the balance is not negative, and
    the next-year figures are those of the first year or 0. *)
Definition RowOK (monthlyPayment : Q) (row : YearlyPaymentData) : Prop :=
  principalPaid row + remainingBalance row == loanAmount /\
  totalPrincipalRemaining row = remainingBalance row /\
  (0 <= loanAmount -> 0 <= remainingBalance row) /\
  ((nextYearPrincipalPayment row
      = principal (yearPaymentFrom monthlyPayment loanAmount) /\
    nextYearInterestPayment row
      = interest (yearPaymentFrom monthlyPayment loanAmount)) \/
   (nextYearPrincipalPayment row = 0 /\ nextYearInterestPayment row = 0)).

End Chart.

(** The total the component derives from the first row of the data. *)
Definition totalAmountToBePaid (data : list YearlyPaymentData) : option Q :=
  first ← data !! 0%nat;
  Some (totalPrincipalRemaining first + totalInterestRemaining first).

End AmortizationChart.

(** ** IEEE 754 double precision

    The values and operations of a JavaScript [number], as the standard
    library specifies them ([SpecFloat], the specification of the primitive
    floats): 53 bits of precision, infinities from exponent 1024, one [NaN],
    signed zeros, every operation rounded to nearest with ties to even. *)

Module Binary64.
Import SpecFloat.

Definition prec : Z := 53.
Definition emax : Z := 1024.
Definition double : Type := spec_float.

Definition fadd : double -> double -> double := SFadd prec emax.
Definition fsub : double -> double -> double := SFsub prec emax.
Definition fmul : double -> double -> double := SFmul prec emax.
Definition fdiv : double -> double -> double := SFdiv prec emax.

(** [x < y], [x <= y], [x == y]: false whenever an operand is [NaN]. *)
Definition fltb : double -> double -> bool := SFltb.
Definition fleb : double -> double -> bool := SFleb.
Definition feqb : double -> double -> bool := SFeqb.

(** The double nearest to an integer (the integer itself below [2^53]). *)
Definition ofZ (z : Z) : double := binary_normalize prec emax z 0 false.

(** The double nearest to [m / 10^k], for [m] and [10^k] below [2^53]: what
    a decimal literal or a parsed decimal field denotes. *)
Definition ofDecimal (m k : Z) : double := fdiv (ofZ m) (ofZ (10 ^ k)).

Definition is_finite (x : double) : bool :=
  match x with
  | S754_zero _ | S754_finite _ _ _ => true
  | S754_infinity _ | S754_nan => false
  end.

(** The rational a finite double stands for. *)
Definition valueOf (x : double) : option Q :=
  match x with
  | S754_zero _ => Some 0
  | S754_finite s m e =>
      Some (inject_Z (if s then Z.neg m else Z.pos m) * 2 ^ e)
  | S754_infinity _ | S754_nan => None
  end.


(** [x] to a positive integer power: the exact power rounded once. *)
Definition powPos (x : double) (n : Z) : double :=
  match x with
  | S754_finite s m e =>
      binary_normalize prec emax
        ((if s then Z.neg m else Z.pos m) ^ n) (e * n) false
  | S754_zero s => S754_zero (s && Z.odd n)
  | S754_infinity s => S754_infinity (s && Z.odd n)
  | S754_nan => S754_nan
  end.

(** [Math.pow(x, n)] for an integer exponent.  ECMAScript fixes the special
    cases (exponent 0 gives 1 for every base, also [NaN]; zeros, infinities
    and [NaN] as below) and leaves the rest implementation-approximated; the
    approximation taken here is the correctly rounded power (its reciprocal
    for a negative exponent), which overflows to an infinity as every
    implementation does. *)
Definition Math_pow (x : double) (n : Z) : double :=
  match n with
  | Z0 => ofZ 1
  | Zpos _ => powPos x n
  | Zneg _ => fdiv (ofZ 1) (powPos x (- n))
  end.

End Binary64.

(** ** Mortgage payment page, binary64 reading

    [calculateMonthlyPayment] and [calculateWithOverpayment] once more, line
    by line as in [Mortgage], with every operation that of [Binary64].  The
    term is an integer ([parseInt]); [loanTermYears * 12] is exact. *)

Module Mortgage64.
Import SpecFloat Binary64.

Definition monthlyRateOf (interestRate : double) : double :=
  fdiv (fdiv interestRate (ofZ 100)) (ofZ 12).
Definition numberOfPaymentsOf (loanTermYears : Z) : Z := (loanTermYears * 12)%Z.

Definition calculateMonthlyPayment
    (loanAmount interestRate : double) (loanTermYears : Z) : double :=
  let monthlyRate := monthlyRateOf interestRate in
  let numberOfPayments := numberOfPaymentsOf loanTermYears in
  if fleb monthlyRate (ofZ 0) then
    fdiv loanAmount (ofZ numberOfPayments)
  else
    fdiv (fmul loanAmount
            (fmul monthlyRate
               (Math_pow (fadd (ofZ 1) monthlyRate) numberOfPayments)))
         (fsub (Math_pow (fadd (ofZ 1) monthlyRate) numberOfPayments)
               (ofZ 1)).

Record LoopState := {
  balance : double;
  month : Z;
  accInterest : double
}.

Record OverpaymentResult := {
  resTotalInterest : double;
  months : Z
}.

Definition loopBody (monthlyInterestRate regularPayment overpayment : double)
    (s : LoopState) : LoopState :=
  let interestThisMonth := fmul (balance s) monthlyInterestRate in
  let totalInterest := fadd (accInterest s) interestThisMonth in
  let principalThisMonth := fsub regularPayment interestThisMonth in
  let principalThisMonth := fadd principalThisMonth overpayment in
  let balance' := fsub (balance s) principalThisMonth in
  if fltb balance' (ofZ 0) then
    {| balance := ofZ 0;
       month := (month s + 1)%Z;
       accInterest := fadd totalInterest (fmul balance' (ofZ (-1))) |}
  else
    {| balance := balance';
       month := (month s + 1)%Z;
       accInterest := totalInterest |}.

Fixpoint whileLoop (fuel : nat)
    (monthlyInterestRate regularPayment overpayment : double)
    (originalTermMonths : Z) (s : LoopState) : LoopState :=
  match fuel with
  | O => s
  | S fuel' =>
      if fltb (ofZ 0) (balance s) && (month s <? originalTermMonths)%Z then
        whileLoop fuel' monthlyInterestRate regularPayment overpayment
          originalTermMonths
          (loopBody monthlyInterestRate regularPayment overpayment s)
      else s
  end.

(** The variables when the loop stops: [month] grows by one per pass, so
    [originalTermMonths] unrollings run the loop to its end. *)
Definition finalState
    (loanAmount monthlyInterestRate regularPayment overpayment : double)
    (originalTermMonths : Z) : LoopState :=
  whileLoop (Z.to_nat originalTermMonths) monthlyInterestRate regularPayment
    overpayment originalTermMonths
    {| balance := loanAmount; month := 0; accInterest := ofZ 0 |}.

Definition calculateWithOverpayment
    (loanAmount monthlyInterestRate regularPayment overpayment : double)
    (originalTermMonths : Z) : OverpaymentResult :=
  let final :=
    finalState loanAmount monthlyInterestRate regularPayment overpayment
      originalTermMonths in
  {| resTotalInterest := accInterest final; months := month final |}.


End Mortgage64.

(** ** Pension projection page, binary64 reading

    The four running figures of [calculateProjection] ([pensionValue] and
    the three totals), updated as in [Pension.yearBody] with every operation
    that of [Binary64].  The yearly breakdown, which reads these figures and
    feeds nothing back, is left to the exact reading. *)

Module Pension64.
Import SpecFloat Binary64.

Record FormData := {
  currentAge : Z;
  retirementAge : Z;
  currentPension : double;
  monthlyContribution : double;
  employerContribution : double;
  stocksAllocation : double;
  bondsAllocation : double;
  cashAllocation : double;
  stocksReturn : double;
  bondsReturn : double;
  cashReturn : double
}.

Record Totals := {
  finalPensionNominal : double;
  totalContributions : double;
  totalEmployerContributions : double;
  totalInvestmentGrowth : double
}.

(** The form's initial state. *)
Definition initialFormData : FormData :=
  {| currentAge := 30;
     retirementAge := 68;
     currentPension := ofZ 50000;
     monthlyContribution := ofZ 500;
     employerContribution := ofZ 300;
     stocksAllocation := ofZ 70;
     bondsAllocation := ofZ 20;
     cashAllocation := ofZ 10;
     stocksReturn := ofDecimal 70 1;
     bondsReturn := ofDecimal 30 1;
     cashReturn := ofDecimal 15 1 |}.

Definition weightedReturn (formData : FormData) : double :=
  fadd (fadd (fmul (fdiv (stocksAllocation formData) (ofZ 100))
                   (stocksReturn formData))
             (fmul (fdiv (bondsAllocation formData) (ofZ 100))
                   (bondsReturn formData)))
       (fmul (fdiv (cashAllocation formData) (ofZ 100))
             (cashReturn formData)).

(** One pass of the [for] loop with [year > 0]. *)
Definition yearBody (formData : FormData) (v : Totals) : Totals :=
  let annualContribution := fmul (monthlyContribution formData) (ofZ 12) in
  let annualEmployerContribution :=
    fmul (employerContribution formData) (ofZ 12) in
  let yearGrowth :=
    fmul (finalPensionNominal v)
         (fdiv (weightedReturn formData) (ofZ 100)) in
  {| finalPensionNominal :=
       fadd (finalPensionNominal v)
            (fadd (fadd yearGrowth annualContribution)
                  annualEmployerContribution);
     totalContributions := fadd (totalContributions v) annualContribution;
     totalEmployerContributions :=
       fadd (totalEmployerContributions v) annualEmployerContribution;
     totalInvestmentGrowth := fadd (totalInvestmentGrowth v) yearGrowth |}.

Fixpoint forLoop (years : nat) (formData : FormData) (v : Totals) : Totals :=
  match years with
  | O => v
  | S years' => forLoop years' formData (yearBody formData v)
  end.

(** The totals handed to [setResults]; [None] when the function throws. *)
Definition calculateProjection (formData : FormData) : option Totals :=
  let yearsToRetirement :=
    (retirementAge formData - currentAge formData)%Z in
  if (yearsToRetirement <=? 0)%Z then None
  else
    Some (forLoop (Z.to_nat yearsToRetirement) formData
            {| finalPensionNominal := currentPension formData;
               totalContributions := currentPension formData;
               totalEmployerContributions := ofZ 0;
               totalInvestmentGrowth := ofZ 0 |}).

End Pension64.

(** ** Auxiliary series

    [1 + x + ... + x^(n-1)]: with [x = 1 + r] it is the factor by which an
    annuity payment is related to the principal, [payment * geomSum x n =
    P * x^n], at a positive rate and at rate 0 alike. *)

Fixpoint geomSum (x : Q) (n : nat) : Q :=
  match n with
  | O => 0
  | S k => 1 + x * geomSum x k
  end.

(** * Properties *)

(** ** Comparison and division helpers *)

Lemma Qlt_bool_true (a b : Q) : Qlt_bool a b = true <-> a < b.
Proof.
  unfold Qlt_bool. rewrite negb_true_iff.
  split; intro H.
  - apply Qnot_le_lt. intro Hle. apply Qle_bool_iff in Hle. congruence.
  - destruct (Qle_bool b a) eqn:E; [|reflexivity].
    apply Qle_bool_iff in E. lra.
Qed.

Lemma Qlt_bool_false (a b : Q) : Qlt_bool a b = false <-> b <= a.
Proof.
  unfold Qlt_bool. rewrite negb_false_iff. apply Qle_bool_iff.
Qed.

Lemma Qle_bool_false (a b : Q) : Qle_bool a b = false <-> b < a.
Proof.
  rewrite <- (Qlt_bool_true b a). unfold Qlt_bool.
  destruct (Qle_bool a b); simpl; split; congruence.
Qed.

Lemma jsdiv_nonzero (a b : Q) : ~ b == 0 -> jsdiv a b = Some (a / b).
Proof.
  intro H. unfold jsdiv.
  destruct (Qeq_bool b 0) eqn:E; [|reflexivity].
  apply Qeq_bool_iff in E. contradiction.
Qed.

Lemma jsdiv_zero (a b : Q) : b == 0 -> jsdiv a b = None.
Proof.
  intro H. unfold jsdiv. now rewrite (Qeq_eq_bool _ _ H).
Qed.

Lemma inject_Z_pos (n : Z) : (0 < n)%Z -> 0 < inject_Z n.
Proof.
  intro H. change 0 with (inject_Z 0). now rewrite <- Zlt_Qlt.
Qed.

(** Loop and branch tests on integers whose outcome follows by linear
    arithmetic from the context. *)
Ltac test_holds t :=
  replace t with true
    by (symmetry;
        first [apply Z.ltb_lt | apply Z.leb_le | apply Nat.ltb_lt]; lia).

Ltac test_fails t :=
  replace t with false
    by (symmetry; first [apply Z.ltb_ge | apply Z.leb_gt]; lia).

(** ** List helpers *)

Lemma lookup_map_seq {A : Type} (f : nat -> A) (n k : nat) :
  map f (seq 0 n) !! k = if (k <? n)%nat then Some (f k) else None.
Proof.
  change (map f (seq 0 n)) with (f <$> seq 0 n).
  rewrite list_lookup_fmap.
  destruct (Nat.ltb_spec k n) as [Hlt | Hge].
  - rewrite lookup_seq_lt by exact Hlt. reflexivity.
  - rewrite lookup_seq_ge by exact Hge. reflexivity.
Qed.

Lemma lookup_map_seq_Some {A : Type} (f : nat -> A) (n k : nat) (a : A) :
  map f (seq 0 n) !! k = Some a -> (k < n)%nat /\ a = f k.
Proof.
  rewrite lookup_map_seq.
  destruct (Nat.ltb_spec k n); [|discriminate].
  intros [= <-]. split; [assumption | reflexivity].
Qed.

(** ** Mortgage payment *)

Module MortgageFacts.
Import Mortgage.

Lemma monthlyRateOf_pos (rate : Q) : 0 < monthlyRateOf rate <-> 0 < rate.
Proof.
  unfold monthlyRateOf. split; intro H.
  - assert (E : rate == rate / 100 / 12 * 1200) by field. lra.
  - assert (E : rate / 100 / 12 == rate * (1 # 1200)) by field. lra.
Qed.

Lemma monthlyRateOf_zero (rate : Q) : monthlyRateOf rate == 0 <-> rate == 0.
Proof.
  unfold monthlyRateOf. split; intro H.
  - assert (E : rate == rate / 100 / 12 * 1200) by field. lra.
  - rewrite H. reflexivity.
Qed.

Lemma pow_gt_1 (r : Q) (n : Z) : 0 < r -> (0 < n)%Z -> 1 < Math_pow (1 + r) n.
Proof.
  intros Hr Hn. unfold Math_pow. apply Qpower_1_lt; [lra | exact Hn].
Qed.

Lemma monthlyPayment_rate_pos (P rate : Q) (years : Z) :
  0 < monthlyRateOf rate -> (0 < numberOfPaymentsOf years)%Z ->
  returns (calculateMonthlyPayment P rate years)
          (P * monthlyRateOf rate *
             (1 + monthlyRateOf rate) ^ numberOfPaymentsOf years /
           ((1 + monthlyRateOf rate) ^ numberOfPaymentsOf years - 1)).
Proof.
  intros Hr Hn. unfold calculateMonthlyPayment.
  set (r := monthlyRateOf rate) in *. set (n := numberOfPaymentsOf years) in *.
  assert (Hle : Qle_bool r 0 = false) by (apply Qle_bool_false; exact Hr).
  rewrite Hle.
  pose proof (pow_gt_1 r n Hr Hn) as Hpow.
  rewrite jsdiv_nonzero by lra.
  eexists; split; [reflexivity|].
  unfold Math_pow in *. field. lra.
Qed.


Lemma Qpower_succ_nat (x : Q) (k : nat) :
  ~ x == 0 -> x ^ Z.of_nat (S k) == x * x ^ Z.of_nat k.
Proof.
  intro Hx. rewrite Nat2Z.inj_succ, <- Z.add_1_l.
  rewrite Qpower_plus by exact Hx. reflexivity.
Qed.

Lemma inject_Z_succ_nat (k : nat) :
  inject_Z (Z.of_nat (S k)) == inject_Z (Z.of_nat k) + 1.
Proof.
  rewrite Nat2Z.inj_succ, <- Z.add_1_r, inject_Z_plus. reflexivity.
Qed.





(** *** The amortization loop *)

Section Simulator.

Variables (rate regularPayment overpayment : Q) (term : Z).

Local Abbreviation body := (loopBody rate regularPayment overpayment).
Local Abbreviation loop fuel :=
  (whileLoop fuel rate regularPayment overpayment term).
Local Abbreviation guard s :=
  (Qlt_bool 0 (balance s) && Z.ltb (month s) term).

Lemma loopBody_month (s : LoopState) : month (body s) = (month s + 1)%Z.
Proof.
  unfold loopBody. destruct (Qlt_bool _ _); reflexivity.
Qed.

Lemma whileLoop_exit (fuel : nat) (s : LoopState) :
  guard s = false -> loop fuel s = s.
Proof.
  destruct fuel; simpl; [reflexivity|].
  intros ->. reflexivity.
Qed.

(** Fuel beyond the number of months left changes nothing: the unrolling
    used by [calculateWithOverpayment] is the loop run to its end. *)
Lemma whileLoop_fuel (fuel extra : nat) (s : LoopState) :
  (Z.to_nat (term - month s) <= fuel)%nat ->
  loop (fuel + extra) s = loop fuel s.
Proof.
  revert s. induction fuel as [|fuel IH]; intros s Hfuel.
  - rewrite (whileLoop_exit 0), (whileLoop_exit (0 + extra)); try reflexivity.
    all: test_fails (month s <? term)%Z; apply andb_false_r.
  - simpl.
    destruct (Qlt_bool 0 (balance s) && (month s <? term)%Z) eqn:G;
      [|reflexivity].
    apply andb_true_iff in G as [_ G]. apply Z.ltb_lt in G.
    apply IH. rewrite loopBody_month. lia.
Qed.


Lemma whileLoop_month_le (fuel : nat) (s : LoopState) :
  (month s <= term)%Z -> (month s <= month (loop fuel s) <= term)%Z.
Proof.
  revert s. induction fuel as [|fuel IH]; intros s Hle.
  - simpl. lia.
  - simpl.
    destruct (Qlt_bool 0 (balance s) && (month s <? term)%Z) eqn:G;
      [|lia].
    apply andb_true_iff in G as [_ G]. apply Z.ltb_lt in G.
    specialize (IH (body s)). rewrite loopBody_month in IH.
    lia.
Qed.



End Simulator.

(** The simulator stops within the original term. *)
Lemma calculateWithOverpayment_months
    (P rate payment overpayment : Q) (term : Z) :
  (0 <= term)%Z ->
  (0 <= months (calculateWithOverpayment P rate payment overpayment term)
     <= term)%Z.
Proof.
  intro Hterm. unfold calculateWithOverpayment. cbn [months].
  apply (whileLoop_month_le rate payment overpayment term
           (Z.to_nat term) {| balance := P; month := 0; accInterest := 0 |}).
  exact Hterm.
Qed.


(** *** The schedule without overpayment *)

Section ClosedForm.

(** [B k] is the balance after [k] scheduled payments. *)
Variables (rate payment : Q) (n : nat) (B : nat -> Q).
Hypothesis B_pos : forall k, (k < n)%nat -> 0 < B k.
Hypothesis B_step :
  forall k, (k < n)%nat -> B (S k) == B k - (payment - B k * rate + 0).
Hypothesis B_end : B n == 0.


End ClosedForm.





(** *** The period that clears the loan *)

Import AmortizationSpec.

Lemma loopBody_interest (rate payment overpayment : Q) (s : LoopState) :
  accInterest (loopBody rate payment overpayment s) ==
  accInterest s + specInterestOf rate s
    + specOvershootOf rate payment overpayment s.
Proof.
  unfold loopBody, specOvershootOf, specInterestOf.
  set (principal := payment - balance s * rate + overpayment).
  destruct (Qlt_bool (balance s - principal) 0) eqn:E1;
    destruct (Qlt_bool (balance s) principal) eqn:E2; cbn [accInterest];
    try ring.
  - apply Qlt_bool_true in E1. apply Qlt_bool_false in E2. lra.
  - apply Qlt_bool_false in E1. apply Qlt_bool_true in E2. lra.
Qed.

(** The reported total is the interest charged plus the overshoot: the
    surplus of the clearing instalment is booked as interest. *)
Lemma whileLoop_interest (fuel : nat) (rate payment overpayment : Q)
    (term : Z) (s : LoopState) :
  accInterest (whileLoop fuel rate payment overpayment term s) ==
  accInterest s
    + sumQ (specSchedule (specInterestOf rate) fuel
              rate payment overpayment term s)
    + sumQ (specSchedule (specOvershootOf rate payment overpayment) fuel
              rate payment overpayment term s).
Proof.
  revert s. induction fuel as [|fuel IH]; intros s.
  - simpl. ring.
  - simpl. destruct (Qlt_bool 0 (balance s) && (month s <? term)%Z).
    + rewrite IH, loopBody_interest. simpl. ring.
    + simpl. ring.
Qed.

Lemma reported_interest_decomposition
    (P rate payment overpayment : Q) (term : Z) :
  resTotalInterest (calculateWithOverpayment P rate payment overpayment term)
  == specInterestCharged P rate payment overpayment term
     + specOvershoot P rate payment overpayment term.
Proof.
  unfold calculateWithOverpayment, specInterestCharged, specOvershoot.
  cbn [resTotalInterest]. rewrite whileLoop_interest. cbn [accInterest]. ring.
Qed.

(** C1 (the code departs from the claim).  Loan 1200 at rate 0, scheduled
    payment 100, overpayment 70, term 12: the eighth instalment of 170 meets
    a balance of 10.  No interest is ever charged (every period's
    [balance * rate] is 0), yet the simulator reports a total interest of
    160, the overshoot of the last period. *)
Theorem overshoot_reported_as_interest :
  let res := calculateWithOverpayment 1200 0 100 70 12 in
  months res = 8%Z /\
  specInterestCharged 1200 0 100 70 12 == 0 /\
  specOvershoot 1200 0 100 70 12 == 160 /\
  resTotalInterest res == 160 /\
  ~ resTotalInterest res == specInterestCharged 1200 0 100 70 12.
Proof.
  cbv zeta. repeat split; try (vm_compute; reflexivity).
  vm_compute. discriminate.
Qed.

(** C3 (the code departs from the claim).  Price 1200, no deposit, one year
    at 0%: the scheduled payment is 100 and the total interest without
    overpayment is 0.  With an overpayment of 70 the loan is cleared in 8 of
    the 12 months, but the reported total interest is 160, above the 0 of
    the schedule without overpayment, and the interest saved is -160. *)
Theorem overpayment_interest_above_schedule :
  exists res,
    calculateMortgage
      {| homePrice := 1200; downPayment := 0; loanTerm := 1;
         interestRate := 0; monthlyOverpayment := 70 |} = Some res /\
    principalAndInterest res == 100 /\
    newLoanTermMonths res = 8%Z /\
    (newLoanTermMonths res <= 12)%Z /\
    totalInterest res == 0 /\
    totalInterestWithOverpayment res == 160 /\
    interestSaved res == -160 /\
    ~ totalInterestWithOverpayment res <= totalInterest res.
Proof.
  eexists. split; [vm_compute; reflexivity|].
  repeat (split; [vm_compute; first [reflexivity | discriminate]|]).
  apply Qlt_not_le. vm_compute. reflexivity.
Qed.

End MortgageFacts.

(** ** Pension projection *)

Module PensionFacts.
Import Pension.

Section Projection.

Variable formData : FormData.
Variable currentYear : Z.

Local Abbreviation body := (yearBody formData currentYear).
Local Abbreviation before := (stateBefore formData currentYear).

(** One pass of the loop takes the variables from year [k] to year [k+1]. *)
Lemma yearBody_stateBefore (k : nat) :
  body (Z.of_nat k) (before k) = before (S k).
Proof.
  unfold stateBefore, yearBody.
  rewrite seq_S, map_app. cbn [map Nat.add Nat.pred].
  destruct k as [|j].
  - reflexivity.
  - test_holds (0 <? Z.of_nat (S j))%Z.
    cbn [vPensionValue vTotalContributions vTotalEmployerContributions
         vTotalGrowth vYearlyBreakdown Nat.pred].
    unfold entryAt.
    test_holds (0 <? Z.of_nat (S j))%Z.
    reflexivity.
Qed.

Lemma forLoop_stateAfter (fuel k : nat) :
  (Z.of_nat (k + fuel) = yearsToRetirement formData + 1)%Z ->
  forLoop formData currentYear fuel (Z.of_nat k) (before k)
  = before (k + fuel).
Proof.
  revert k. induction fuel as [|fuel IH]; intros k Hk.
  - simpl. now rewrite Nat.add_0_r.
  - simpl.
    test_holds (Z.of_nat k <=? yearsToRetirement formData)%Z.
    rewrite yearBody_stateBefore.
    replace (Z.of_nat k + 1)%Z with (Z.of_nat (S k)) by lia.
    rewrite IH by lia. f_equal. lia.
Qed.

(** A projection with a retirement age above the current age yields a
    result, whose fields are the recurrences at the last year. *)
Lemma calculateProjection_result :
  (currentAge formData < retirementAge formData)%Z ->
  let N := Z.to_nat (yearsToRetirement formData) in
  calculateProjection formData currentYear =
  Some {| finalPensionNominal := valueAt formData N;
          finalPensionReal := realPensionValue (entryAt formData currentYear N);
          totalContributions := contributionsAt formData N;
          totalEmployerContributions := employerContributionsAt formData N;
          totalInvestmentGrowth := growthAt formData N;
          yearlyBreakdown := map (entryAt formData currentYear) (seq 0 (S N)) |}.
Proof.
  intros Hage N. unfold calculateProjection.
  assert (Hy : (0 < yearsToRetirement formData)%Z)
    by (unfold yearsToRetirement; lia).
  test_fails (yearsToRetirement formData <=? 0)%Z.
  replace (Z.to_nat (yearsToRetirement formData + 1)) with (S N) by lia.
  pose proof (forLoop_stateAfter (S N) 0 ltac:(lia)) as Hloop.
  change (Z.of_nat 0) with 0%Z in Hloop.
  change (before 0) with
    {| vPensionValue := currentPension formData;
       vTotalContributions := currentPension formData;
       vTotalEmployerContributions := 0;
       vTotalGrowth := 0;
       vYearlyBreakdown := [] |} in Hloop.
  rewrite Hloop. cbn [Nat.add].
  unfold stateBefore. cbn [vYearlyBreakdown vPensionValue vTotalContributions
    vTotalEmployerContributions vTotalGrowth Nat.pred].
  assert (Hlast : last (map (entryAt formData currentYear) (seq 0 (S N)))
                  = Some (entryAt formData currentYear N)).
  { rewrite seq_S, map_app. cbn [map Nat.add]. apply last_snoc. }
  rewrite Hlast. reflexivity.
Qed.

End Projection.

Lemma value_conservation (formData : FormData) (k : nat) :
  valueAt formData k ==
  contributionsAt formData k + employerContributionsAt formData k
    + growthAt formData k.
Proof.
  induction k as [|k IH]; simpl; [ring | rewrite IH; ring].
Qed.

Lemma contributionsAt_closed (formData : FormData) (k : nat) :
  contributionsAt formData k ==
  currentPension formData
    + inject_Z (Z.of_nat k) * annualContributionOf formData.
Proof.
  induction k as [|k IH].
  - change (inject_Z (Z.of_nat 0)) with 0. simpl. ring.
  - rewrite Nat2Z.inj_succ, <- Z.add_1_r, inject_Z_plus.
    change (inject_Z 1) with 1. simpl. rewrite IH. ring.
Qed.

Lemma employerContributionsAt_closed (formData : FormData) (k : nat) :
  employerContributionsAt formData k ==
  inject_Z (Z.of_nat k) * annualEmployerContributionOf formData.
Proof.
  induction k as [|k IH].
  - change (inject_Z (Z.of_nat 0)) with 0. simpl. ring.
  - rewrite Nat2Z.inj_succ, <- Z.add_1_r, inject_Z_plus.
    change (inject_Z 1) with 1. simpl. rewrite IH. ring.
Qed.

(** C6.  A projection from [currentAge] to a later [retirementAge] has a
    yearly breakdown whose year 0 is the starting balance, with no growth
    and no contribution; for every later year [k], growth is the previous
    balance times the blended return (the allocation-weighted return, as a
    fraction), the balance is the previous balance plus growth plus both
    annual contributions, and the real value is the balance divided by
    [(1 + inflationRate/100)^k]. *)
Theorem projection_per_year (formData : FormData) (currentYear : Z) :
  (currentAge formData < retirementAge formData)%Z ->
  exists res,
    calculateProjection formData currentYear = Some res /\
    (exists first,
       yearlyBreakdown res !! 0%nat = Some first /\
       pensionValue first = currentPension formData /\
       annualGrowth first = 0 /\
       annualContribution first = 0 /\
       annualEmployerContribution first = 0) /\
    (forall k : nat,
       (0 < k)%nat -> (Z.of_nat k <= yearsToRetirement formData)%Z ->
       exists prev entry,
         yearlyBreakdown res !! (k - 1)%nat = Some prev /\
         yearlyBreakdown res !! k = Some entry /\
         annualGrowth entry ==
           pensionValue prev *
           (((stocksAllocation formData / 100) * stocksReturn formData +
             (bondsAllocation formData / 100) * bondsReturn formData +
             (cashAllocation formData / 100) * cashReturn formData) / 100) /\
         pensionValue entry ==
           pensionValue prev + annualGrowth entry
             + monthlyContribution formData * 12
             + employerContribution formData * 12 /\
         realPensionValue entry =
           jsdiv (pensionValue entry)
                 ((1 + inflationRate formData / 100) ^ Z.of_nat k) /\
         (0 <= inflationRate formData ->
          returns (realPensionValue entry)
                  (pensionValue entry /
                   (1 + inflationRate formData / 100) ^ Z.of_nat k))).
Proof.
  intro Hage.
  eexists. split; [apply calculateProjection_result; exact Hage|].
  cbn [yearlyBreakdown].
  set (N := Z.to_nat (yearsToRetirement formData)).
  split.
  - exists (entryAt formData currentYear 0). repeat split; reflexivity.
  - intros k Hk Hle.
    exists (entryAt formData currentYear (k - 1)), (entryAt formData currentYear k).
    rewrite !lookup_map_seq.
    test_holds (k - 1 <? S N)%nat.
    test_holds (k <? S N)%nat.
    do 2 (split; [reflexivity|]).
    destruct k as [|j]; [lia|].
    replace (S j - 1)%nat with j by lia.
    unfold entryAt.
    cbn [annualGrowth pensionValue realPensionValue].
    test_holds (0 <? Z.of_nat (S j))%Z.
    cbn [Nat.pred valueAt].
    unfold weightedReturn, annualContributionOf, annualEmployerContributionOf.
    split; [reflexivity|]. split; [ring|]. split; [reflexivity|].
    intro Hinfl.
    assert (Hpow : 0 < (1 + inflationRate formData / 100) ^ Z.of_nat (S j)).
    { apply Qpower_0_lt.
      assert (E : inflationRate formData / 100
                  == inflationRate formData * (1 # 100)) by field.
      lra. }
    unfold Math_pow. rewrite jsdiv_nonzero by lra.
    eexists. split; reflexivity.
Qed.

Lemma projection_per_year_witness :
  (currentAge initialFormData < retirementAge initialFormData)%Z /\
  exists res first second,
    calculateProjection initialFormData 2026 = Some res /\
    yearlyBreakdown res !! 0%nat = Some first /\
    yearlyBreakdown res !! 1%nat = Some second /\
    pensionValue first = currentPension initialFormData /\
    annualGrowth first = 0 /\
    pensionValue second ==
      pensionValue first + annualGrowth second
        + monthlyContribution initialFormData * 12
        + employerContribution initialFormData * 12.
Proof.
  split; [reflexivity|].
  destruct (projection_per_year initialFormData 2026 eq_refl)
    as (res & Hres & (first & Hfirst & Hvalue & Hgrowth & _) & Hlater).
  destruct (Hlater 1%nat ltac:(lia) ltac:(vm_compute; discriminate))
    as (prev & second & Hprev & Hsecond & _ & Hbalance & _).
  exists res, first, second.
  cbn [Nat.sub] in Hprev. rewrite Hfirst in Hprev.
  injection Hprev as <-.
  repeat split; assumption.
Defined.

(** C8.  When the allocation percentages sum to 100, in every year of the
    breakdown the stocks, bonds and cash values sum to the pension value of
    that year. *)
Theorem asset_values_sum_to_balance (formData : FormData) (currentYear : Z) :
  stocksAllocation formData + bondsAllocation formData
    + cashAllocation formData == 100 ->
  (currentAge formData < retirementAge formData)%Z ->
  exists res,
    calculateProjection formData currentYear = Some res /\
    Z.of_nat (length (yearlyBreakdown res))
      = (yearsToRetirement formData + 1)%Z /\
    forall (k : nat) (entry : YearEntry),
      yearlyBreakdown res !! k = Some entry ->
      stocks entry + bonds entry + cash entry == pensionValue entry.
Proof.
  intros Hsum Hage.
  eexists. split; [apply calculateProjection_result; exact Hage|].
  cbn [yearlyBreakdown]. split.
  - rewrite length_map, length_seq. unfold yearsToRetirement. lia.
  - intros k entry Hlook.
    apply lookup_map_seq_Some in Hlook as [_ ->].
    unfold entryAt. cbn [stocks bonds cash pensionValue].
    set (v := valueAt formData k).
    assert (E : v * (stocksAllocation formData / 100)
                + v * (bondsAllocation formData / 100)
                + v * (cashAllocation formData / 100)
                == v * ((stocksAllocation formData + bondsAllocation formData
                         + cashAllocation formData) / 100)) by field.
    rewrite E, Hsum. field.
Qed.

Lemma asset_values_sum_to_balance_witness :
  stocksAllocation initialFormData + bondsAllocation initialFormData
    + cashAllocation initialFormData == 100 /\
  (currentAge initialFormData < retirementAge initialFormData)%Z /\
  exists res,
    calculateProjection initialFormData 2026 = Some res /\
    Z.of_nat (length (yearlyBreakdown res))
      = (yearsToRetirement initialFormData + 1)%Z /\
    forall (k : nat) (entry : YearEntry),
      yearlyBreakdown res !! k = Some entry ->
      stocks entry + bonds entry + cash entry == pensionValue entry.
Proof.
  split; [reflexivity|]. split; [reflexivity|].
  apply (asset_values_sum_to_balance initialFormData 2026); reflexivity.
Defined.

(** C10 (as amended).  Up to floating-point rounding, the final nominal
    pension value is the sum of the three reported totals, where the total
    of own contributions starts from the current pension pot: it is the pot
    plus one annual contribution per projected year.  The identity is that
    of the exact reading, each pass adding the same amounts to both sides;
    the doubles accumulate the four figures separately and can end an ulp
    apart (shown on the binary64 reading, in [Pension64Facts]). *)
Theorem projection_conservation (formData : FormData) (currentYear : Z) :
  (currentAge formData < retirementAge formData)%Z ->
  exists res,
    calculateProjection formData currentYear = Some res /\
    finalPensionNominal res ==
      totalContributions res + totalEmployerContributions res
        + totalInvestmentGrowth res /\
    totalContributions res ==
      currentPension formData
        + inject_Z (yearsToRetirement formData)
          * (monthlyContribution formData * 12) /\
    totalEmployerContributions res ==
      inject_Z (yearsToRetirement formData)
        * (employerContribution formData * 12).
Proof.
  intro Hage.
  eexists. split; [apply calculateProjection_result; exact Hage|].
  cbn [finalPensionNominal totalContributions totalEmployerContributions
       totalInvestmentGrowth].
  assert (HN : Z.of_nat (Z.to_nat (yearsToRetirement formData))
               = yearsToRetirement formData)
    by (unfold yearsToRetirement; lia).
  split; [apply value_conservation|]. split.
  - rewrite contributionsAt_closed, HN. reflexivity.
  - rewrite employerContributionsAt_closed, HN. reflexivity.
Qed.

Lemma projection_conservation_witness :
  (currentAge initialFormData < retirementAge initialFormData)%Z /\
  exists res,
    calculateProjection initialFormData 2026 = Some res /\
    finalPensionNominal res ==
      totalContributions res + totalEmployerContributions res
        + totalInvestmentGrowth res /\
    totalContributions res ==
      currentPension initialFormData
        + inject_Z (yearsToRetirement initialFormData)
          * (monthlyContribution initialFormData * 12) /\
    totalEmployerContributions res ==
      inject_Z (yearsToRetirement initialFormData)
        * (employerContribution initialFormData * 12).
Proof.
  split; [reflexivity|].
  apply (projection_conservation initialFormData 2026); reflexivity.
Defined.

(** C7 (as amended).  When the three allocation percentages do not sum to
    100 the effect sets the allocation error, computes nothing (the previous
    result, if any, is kept) and the Calculate button is disabled, so a click
    computes nothing either.  When they sum to 100 and the retirement age is
    above the current age, the effect clears the error and sets the computed
    projection. *)
Theorem allocation_gate (currentYear : Z) (formData : FormData)
    (st : PageState) :
  let total :=
    stocksAllocation formData + bondsAllocation formData
      + cashAllocation formData in
  (~ total == 100 ->
     formDataEffect currentYear formData st =
       {| results := results st;
          allocationError := Some (AllocationMustTotal100 total) |} /\
     calculateClick currentYear formData
       (formDataEffect currentYear formData st)
     = formDataEffect currentYear formData st) /\
  (total == 100 ->
   (currentAge formData < retirementAge formData)%Z ->
     exists res,
       calculateProjection formData currentYear = Some res /\
       formDataEffect currentYear formData st =
         {| results := Some res; allocationError := None |}).
Proof.
  intro total. split.
  - intro Hne.
    assert (E : Qeq_bool total 100 = false).
    { destruct (Qeq_bool total 100) eqn:E; [|reflexivity].
      apply Qeq_bool_iff in E. contradiction. }
    assert (Heff : formDataEffect currentYear formData st =
                   {| results := results st;
                      allocationError := Some (AllocationMustTotal100 total) |}).
    { unfold formDataEffect. fold total. rewrite E. reflexivity. }
    split; [exact Heff|].
    rewrite Heff. reflexivity.
  - intros Heq Hage.
    eexists. split; [apply calculateProjection_result; exact Hage|].
    unfold formDataEffect. fold total.
    rewrite (Qeq_eq_bool _ _ Heq). cbn [negb].
    rewrite (calculateProjection_result formData currentYear Hage).
    reflexivity.
Qed.

Lemma allocation_gate_witness :
  let rejected :=
    {| currentAge := 30; retirementAge := 68; currentPension := 50000;
       monthlyContribution := 500; employerContribution := 300;
       stocksAllocation := 70; bondsAllocation := 20; cashAllocation := 5;
       stocksReturn := 70 # 10; bondsReturn := 30 # 10;
       cashReturn := 15 # 10; inflationRate := 20 # 10 |} in
  let st := {| results := None; allocationError := None |} in
  (~ 70 + 20 + 5 == 100) /\
  formDataEffect 2026 rejected st =
    {| results := None;
       allocationError := Some (AllocationMustTotal100 (70 + 20 + 5)) |} /\
  70 + 20 + 10 == 100 /\
  (currentAge initialFormData < retirementAge initialFormData)%Z /\
  exists res,
    calculateProjection initialFormData 2026 = Some res /\
    formDataEffect 2026 initialFormData st =
      {| results := Some res; allocationError := None |}.
Proof.
  intros rejected st.
  assert (Hne : ~ 70 + 20 + 5 == 100) by (intro H; discriminate H).
  split; [exact Hne|]. split.
  - exact (proj1 (proj1 (allocation_gate 2026 rejected st) Hne)).
  - split; [reflexivity|]. split; [reflexivity|].
    exact (proj2 (allocation_gate 2026 initialFormData st) eq_refl eq_refl).
Defined.

(** C7, the claim as first stated: allocations 70/20/10 sum to 100, yet with
    a retirement age not above the current age no projection is computed. *)
Lemma allocation_total_100_without_projection :
  let formData :=
    {| currentAge := 68; retirementAge := 68; currentPension := 50000;
       monthlyContribution := 500; employerContribution := 300;
       stocksAllocation := 70; bondsAllocation := 20; cashAllocation := 10;
       stocksReturn := 7; bondsReturn := 3; cashReturn := 15 # 10;
       inflationRate := 2 |} in
  stocksAllocation formData + bondsAllocation formData
    + cashAllocation formData == 100 /\
  calculateProjection formData 2026 = None /\
  formDataEffect 2026 formData {| results := None; allocationError := None |}
  = {| results := None; allocationError := None |}.
Proof.
  cbv zeta. repeat split; vm_compute; reflexivity.
Qed.

End PensionFacts.

(** ** Purchasing power *)

Module PurchasingPowerFacts.
Import PurchasingPower.

Lemma rateOrDefault_missing (table : gmap Z Q) (year : Z) :
  table !! year = None -> rateOrDefault table year = 2.
Proof.
  unfold rateOrDefault. intros ->. reflexivity.
Qed.

Lemma rateOrDefault_present (table : gmap Z Q) (year : Z) (rate : Q) :
  table !! year = Some rate -> ~ rate == 0 ->
  rateOrDefault table year = rate.
Proof.
  unfold rateOrDefault. intros -> Hne.
  destruct (Qeq_bool rate 0) eqn:E; [|reflexivity].
  apply Qeq_bool_iff in E. contradiction.
Qed.

(** No year of the page's table has the rate 0, so every year of the table
    is walked with its own rate. *)
Lemma ukInflationData_rate (year : Z) (rate : Q) :
  ukInflationData !! year = Some rate ->
  rateOrDefault ukInflationData year = rate.
Proof.
  intro Hlook. apply rateOrDefault_present; [exact Hlook|].
  apply elem_of_list_to_map_2 in Hlook.
  assert (Hall : Forall (fun row : Z * Q => ~ snd row == 0) ukInflationRows).
  { unfold ukInflationRows.
    repeat (constructor; [intro H; discriminate H|]). constructor. }
  rewrite Forall_forall in Hall. exact (Hall _ Hlook).
Qed.

Lemma earliestYear_ukInflationData : earliestYearOf ukInflationData = 1980%Z.
Proof. vm_compute. reflexivity. Qed.

Section Calculation.

Variable table : gmap Z Q.
Variable currentYear : Z.
Variable Math_pow_root : Q -> Z -> option Q.

(** The loop started at the [k]-th year with the running amount of that
    year leaves the breakdown of all years up to [validEndYear]. *)
Lemma yearLoop_breakdown (amount : Q) (validStartYear validEndYear : Z)
    (fuel k : nat) :
  (validStartYear + Z.of_nat (k + fuel) = validEndYear + 1)%Z ->
  snd (yearLoop table fuel validEndYear (validStartYear + Z.of_nat k)
         (amountAt table amount validStartYear k)
         (map (entryAt table amount validStartYear) (seq 0 k)))
  = map (entryAt table amount validStartYear) (seq 0 (k + fuel)).
Proof.
  revert k. induction fuel as [|fuel IH]; intros k Hk.
  - simpl. now rewrite Nat.add_0_r.
  - cbn [yearLoop].
    test_holds (validStartYear + Z.of_nat k <=? validEndYear)%Z.
    assert (Hpush :
      map (entryAt table amount validStartYear) (seq 0 k) ++
      [ {| entryYear := (validStartYear + Z.of_nat k)%Z;
           entryAmount := amountAt table amount validStartYear k;
           entryInflationRate :=
             rateOrDefault table (validStartYear + Z.of_nat k) |} ]
      = map (entryAt table amount validStartYear) (seq 0 (S k))).
    { rewrite seq_S, map_app. reflexivity. }
    rewrite Hpush.
    destruct fuel as [|fuel].
    + cbn [yearLoop snd]. replace (k + 1)%nat with (S k) by lia. reflexivity.
    + test_holds (validStartYear + Z.of_nat k <? validEndYear)%Z.
      replace (validStartYear + Z.of_nat k + 1)%Z
        with (validStartYear + Z.of_nat (S k))%Z by lia.
      change (amountAt table amount validStartYear k *
              (1 + rateOrDefault table (validStartYear + Z.of_nat k) / 100))
        with (amountAt table amount validStartYear (S k)).
      rewrite IH by lia.
      replace (S k + S fuel)%nat with (k + S (S fuel))%nat by lia. reflexivity.
Qed.

Lemma valid_years (formData : FormData) :
  (earliestYearOf table <= startYear formData)%Z ->
  (startYear formData <= endYear formData)%Z ->
  (endYear formData <= currentYear)%Z ->
  validStartYearOf table formData = startYear formData /\
  validEndYearOf table currentYear formData = endYear formData.
Proof.
  intros H1 H2 H3. unfold validEndYearOf, validStartYearOf, earliestYear.
  split; lia.
Qed.

(** For a start year not before the table's earliest year, an end year not
    before the start year and not after the current year, the computation
    yields a result whose fields are the recurrence at the last year. *)
Lemma calculatePurchasingPower_result (formData : FormData) :
  (earliestYearOf table <= startYear formData)%Z ->
  (startYear formData <= endYear formData)%Z ->
  (endYear formData <= currentYear)%Z ->
  let amount := amount formData in
  let start := startYear formData in
  let yearDiff := (endYear formData - start)%Z in
  let adjusted := amountAt table amount start (Z.to_nat yearDiff) in
  calculatePurchasingPower table currentYear Math_pow_root formData =
  Some {| originalAmount := amount;
          adjustedAmount := adjusted;
          percentageChange :=
            q ← jsdiv (adjusted - amount) amount; Some (q * 100);
          inflationFactor := jsdiv adjusted amount;
          averageInflation :=
            a ← (if (0 <? yearDiff)%Z then
                   ratio ← jsdiv adjusted amount;
                   root ← Math_pow_root ratio yearDiff;
                   Some (root - 1)
                 else Some 0);
            Some (a * 100);
          yearlyBreakdown :=
            map (entryAt table amount start)
                (seq 0 (S (Z.to_nat yearDiff))) |}.
Proof.
  intros H1 H2 H3 amt start yearDiff adjusted.
  destruct (valid_years formData H1 H2 H3) as [Hs He].
  unfold calculatePurchasingPower. rewrite Hs, He.
  fold amt start yearDiff.
  set (D := Z.to_nat yearDiff) in *.
  replace (Z.to_nat (yearDiff + 1)) with (S D) by (unfold D, yearDiff, start; lia).
  pose proof (yearLoop_breakdown amt start (endYear formData) (S D) 0) as Hloop.
  change (seq 0 0) with (@nil nat) in Hloop. cbn [map Nat.add] in Hloop.
  change (Z.of_nat 0) with 0%Z in Hloop. rewrite Z.add_0_r in Hloop.
  cbn [amountAt] in Hloop.
  specialize (Hloop ltac:(unfold D, yearDiff, start; lia)).
  destruct (yearLoop table (S D) (endYear formData) start amt [])
    as [leftover breakdown].
  cbn [snd] in Hloop. subst breakdown.
  assert (Hlast : last (map (entryAt table amt start) (seq 0 (S D)))
                  = Some (entryAt table amt start D)).
  { rewrite seq_S, map_app. cbn [map Nat.add]. apply last_snoc. }
  rewrite Hlast. reflexivity.
Qed.

(** C9 (as amended).  For a start year not before the table's earliest
    year and an end year between the start year and the current year, the
    breakdown has one entry per year from start to end inclusive; the first
    amount is the original amount; each entry carries the rate of its year,
    which is 2 for a year missing from the table; each later amount is the
    previous one times [1 + rate/100]; the adjusted amount is the amount of
    the end year's entry.  When start and end coincide the adjusted amount
    is the original amount, the average annual inflation is 0, and for an
    amount other than 0 the percentage change is 0. *)
Theorem purchasing_power_walk (formData : FormData) :
  (earliestYearOf table <= startYear formData)%Z ->
  (startYear formData <= endYear formData)%Z ->
  (endYear formData <= currentYear)%Z ->
  exists res,
    calculatePurchasingPower table currentYear Math_pow_root formData
      = Some res /\
    map entryYear (yearlyBreakdown res) =
      seqZ (startYear formData)
           (endYear formData - startYear formData + 1) /\
    (exists first,
       yearlyBreakdown res !! 0%nat = Some first /\
       entryAmount first = amount formData) /\
    (forall (k : nat) (entry : BreakdownEntry),
       yearlyBreakdown res !! k = Some entry ->
       entryInflationRate entry = rateOrDefault table (entryYear entry) /\
       (table !! entryYear entry = None -> entryInflationRate entry = 2) /\
       (forall rate, table !! entryYear entry = Some rate -> ~ rate == 0 ->
                     entryInflationRate entry = rate)) /\
    (forall (k : nat) (entry next : BreakdownEntry),
       yearlyBreakdown res !! k = Some entry ->
       yearlyBreakdown res !! S k = Some next ->
       entryAmount next =
         entryAmount entry * (1 + entryInflationRate entry / 100)) /\
    (exists final,
       last (yearlyBreakdown res) = Some final /\
       entryYear final = endYear formData /\
       adjustedAmount res = entryAmount final) /\
    (startYear formData = endYear formData ->
       adjustedAmount res = amount formData /\
       returns (averageInflation res) 0 /\
       (~ amount formData == 0 -> returns (percentageChange res) 0)).
Proof.
  intros H1 H2 H3.
  eexists. split; [apply calculatePurchasingPower_result; assumption|].
  cbn [yearlyBreakdown adjustedAmount averageInflation percentageChange].
  set (amt := amount formData). set (start := startYear formData).
  set (yearDiff := (endYear formData - start)%Z).
  set (D := Z.to_nat yearDiff).
  assert (HD : Z.of_nat D = yearDiff) by (unfold D, yearDiff, start; lia).
  split; [|split; [|split; [|split; [|split]]]].
  - unfold seqZ.
    replace (Z.to_nat (yearDiff + 1)) with (S D) by lia.
    change ((λ i : nat, (Z.of_nat i + start)%Z) <$> seq 0 (S D))
      with (map (λ i : nat, (Z.of_nat i + start)%Z) (seq 0 (S D))).
    rewrite map_map. apply map_ext. intro k. cbn [entryAt entryYear]. lia.
  - exists (entryAt table amt start 0). split; reflexivity.
  - intros k entry Hlook.
    apply lookup_map_seq_Some in Hlook as [_ ->].
    cbn [entryAt entryInflationRate entryYear].
    split; [reflexivity|].
    split; [apply rateOrDefault_missing | apply rateOrDefault_present].
  - intros k entry next Hk HSk.
    apply lookup_map_seq_Some in Hk as [_ ->].
    apply lookup_map_seq_Some in HSk as [_ ->].
    reflexivity.
  - exists (entryAt table amt start D). split; [|split].
    + rewrite seq_S, map_app. cbn [map Nat.add]. apply last_snoc.
    + cbn [entryAt entryYear]. unfold yearDiff, start in *. lia.
    + reflexivity.
  - intro Hsame.
    assert (HD0 : D = 0%nat) by (unfold D, yearDiff, start; lia).
    assert (Hy0 : yearDiff = 0%Z) by (unfold yearDiff, start; lia).
    rewrite HD0, Hy0. cbn [amountAt Z.ltb Z.compare].
    split; [reflexivity|]. split.
    + eexists. split; [reflexivity | ring].
    + intro Hne. rewrite jsdiv_nonzero by exact Hne.
      eexists. split; [reflexivity | field; exact Hne].
Qed.


End Calculation.

(** C9, the claim as first stated: with amount 0 and start year equal to end
    year the percentage change divides 0 by 0 and is not a number, not 0. *)
Lemma zero_amount_percentage_change_not_a_number :
  exists res,
    calculatePurchasingPower ukInflationData 2026 (fun _ _ => None)
      {| amount := 0; startYear := 2000; endYear := 2000 |} = Some res /\
    adjustedAmount res = 0 /\
    percentageChange res = None /\
    ~ returns (percentageChange res) 0.
Proof.
  eexists. split; [vm_compute; reflexivity|].
  cbn [adjustedAmount percentageChange].
  repeat split. intros (q & Hq & _). discriminate Hq.
Qed.

Lemma purchasing_power_walk_witness :
  let walked := {| amount := 1000; startYear := 2000; endYear := 2024 |} in
  let same := {| amount := 1000; startYear := 2000; endYear := 2000 |} in
  (earliestYearOf ukInflationData <= 2000)%Z /\
  (2000 <= 2024)%Z /\ (2024 <= 2026)%Z /\
  (exists res final,
     calculatePurchasingPower ukInflationData 2026 (fun _ _ => None) walked
       = Some res /\
     map entryYear (yearlyBreakdown res) = seqZ 2000 (2024 - 2000 + 1) /\
     last (yearlyBreakdown res) = Some final /\
     entryYear final = 2024%Z /\
     adjustedAmount res = entryAmount final) /\
  (exists res,
     calculatePurchasingPower ukInflationData 2026 (fun _ _ => None) same
       = Some res /\
     adjustedAmount res = 1000 /\
     returns (averageInflation res) 0 /\
     returns (percentageChange res) 0).
Proof.
  intros walked same.
  assert (H1 : (earliestYearOf ukInflationData <= 2000)%Z)
    by (vm_compute; discriminate).
  assert (H2 : (2000 <= 2024)%Z) by (vm_compute; discriminate).
  assert (H3 : (2024 <= 2026)%Z) by (vm_compute; discriminate).
  split; [exact H1|]. split; [exact H2|]. split; [exact H3|]. split.
  - destruct (purchasing_power_walk ukInflationData 2026 (fun _ _ => None)
                walked H1 H2 H3)
      as (res & Hres & Hyears & _ & _ & _ & (final & Hlast & Hyear & Hadj) & _).
    exists res, final. repeat split; assumption.
  - assert (H4 : (2000 <= 2000)%Z) by (vm_compute; discriminate).
    assert (H5 : (2000 <= 2026)%Z) by (vm_compute; discriminate).
    destruct (purchasing_power_walk ukInflationData 2026 (fun _ _ => None)
                same H1 H4 H5)
      as (res & Hres & _ & _ & _ & _ & _ & Hsame).
    destruct (Hsame eq_refl) as (Hadj & Havg & Hpct).
    exists res. repeat split; try assumption.
    apply Hpct. intro H. discriminate H.
Defined.

End PurchasingPowerFacts.

(** * Further properties of the code *)

(** ** Mortgage page: payment and simulator *)

Module MortgageMore.
Import Mortgage MortgageFacts.

Lemma geomSum_closed (x : Q) (n : nat) :
  ~ x == 0 -> (x - 1) * geomSum x n == x ^ Z.of_nat n - 1.
Proof.
  intro Hx. induction n as [|n IH].
  - change (Z.of_nat 0) with 0%Z. change (x ^ 0) with 1. simpl. ring.
  - rewrite Qpower_succ_nat by exact Hx. cbn [geomSum].
    setoid_replace ((x - 1) * (1 + x * geomSum x n))
      with ((x - 1) + x * ((x - 1) * geomSum x n)) using relation Qeq by ring.
    rewrite IH. ring.
Qed.

Lemma geomSum_one (x : Q) (n : nat) :
  x == 1 -> geomSum x n == inject_Z (Z.of_nat n).
Proof.
  intro Hx. induction n as [|n IH].
  - reflexivity.
  - rewrite inject_Z_succ_nat. cbn [geomSum]. rewrite IH, Hx. ring.
Qed.

Lemma monthlyPayment_defined (P rate : Q) (years : Z) :
  (0 < numberOfPaymentsOf years)%Z ->
  exists payment, calculateMonthlyPayment P rate years = Some payment.
Proof.
  intro Hn. destruct (Qlt_le_dec 0 (monthlyRateOf rate)) as [Hlt | Hle].
  - destruct (monthlyPayment_rate_pos P rate years Hlt Hn) as (p & Hp & _).
    now exists p.
  - unfold calculateMonthlyPayment.
    assert (E : Qle_bool (monthlyRateOf rate) 0 = true)
      by (apply Qle_bool_iff; exact Hle).
    rewrite E. pose proof (inject_Z_pos _ Hn).
    rewrite jsdiv_nonzero by lra. eauto.
Qed.

(** What a result of [calculateMortgage] holds, field by field. *)
Lemma calculateMortgage_inv (formData : MortgageFormData)
    (res : MortgageResults) :
  calculateMortgage formData = Some res ->
  let L := homePrice formData - downPayment formData in
  let n := (loanTerm formData * 12)%Z in
  let run :=
    calculateWithOverpayment L (interestRate formData / 100 / 12)
      (principalAndInterest res) (monthlyOverpayment formData) n in
  calculateMonthlyPayment L (interestRate formData) (loanTerm formData)
    = Some (principalAndInterest res) /\
  calculateMonthlyPayment L (interestRate formData + 1) (loanTerm formData)
    = Some (higherRatePayment res) /\
  calculateMonthlyPayment L (Qmax 0 (interestRate formData - 1))
    (loanTerm formData) = Some (lowerRatePayment res) /\
  monthlyPayment res = principalAndInterest res /\
  loanAmount res = L /\
  totalPayment res = principalAndInterest res * inject_Z n /\
  totalInterest res = principalAndInterest res * inject_Z n - L /\
  (if Qlt_bool 0 (monthlyOverpayment formData) then
     totalInterestWithOverpayment res = resTotalInterest run /\
     interestSaved res = totalInterest res - resTotalInterest run /\
     newLoanTermMonths res = months run /\
     monthsReduced res = (n - months run)%Z
   else
     totalInterestWithOverpayment res = totalInterest res /\
     interestSaved res = 0 /\
     newLoanTermMonths res = n /\
     monthsReduced res = 0%Z).
Proof.
  unfold calculateMortgage.
  set (L := homePrice formData - downPayment formData).
  set (n := (loanTerm formData * 12)%Z).
  set (r := interestRate formData / 100 / 12).
  assert (Hinline :
    (if Qlt_bool 0 r then
       jsdiv (L * (r * Math_pow (1 + r) n)) (Math_pow (1 + r) n - 1)
     else jsdiv L (inject_Z n))
    = calculateMonthlyPayment L (interestRate formData) (loanTerm formData)).
  { unfold calculateMonthlyPayment, Qlt_bool, monthlyRateOf, numberOfPaymentsOf.
    fold r n. destruct (Qle_bool r 0); reflexivity. }
  rewrite Hinline.
  destruct (calculateMonthlyPayment L (interestRate formData)
              (loanTerm formData)) as [pay|]; [|discriminate].
  cbn [mbind option_bind].
  destruct (calculateMonthlyPayment L (interestRate formData + 1)
              (loanTerm formData)) as [hi|];
    [|destruct (Qlt_bool 0 (monthlyOverpayment formData)); discriminate].
  destruct (calculateMonthlyPayment L (Qmax 0 (interestRate formData - 1))
              (loanTerm formData)) as [lo|];
    [|destruct (Qlt_bool 0 (monthlyOverpayment formData)); discriminate].
  destruct (Qlt_bool 0 (monthlyOverpayment formData));
    cbn [mbind option_bind]; intros [= <-]; cbv zeta;
    cbn [principalAndInterest higherRatePayment lowerRatePayment
         monthlyPayment loanAmount totalPayment totalInterest
         totalInterestWithOverpayment interestSaved newLoanTermMonths
         monthsReduced];
    repeat split; reflexivity.
Qed.

Lemma calculateMortgage_runs (formData : MortgageFormData) :
  (0 < loanTerm formData)%Z ->
  exists res, calculateMortgage formData = Some res.
Proof.
  intro Hterm. unfold calculateMortgage.
  set (L := homePrice formData - downPayment formData).
  set (n := (loanTerm formData * 12)%Z).
  set (r := interestRate formData / 100 / 12).
  assert (Hn : (0 < numberOfPaymentsOf (loanTerm formData))%Z)
    by (unfold numberOfPaymentsOf; lia).
  assert (Hinline :
    (if Qlt_bool 0 r then
       jsdiv (L * (r * Math_pow (1 + r) n)) (Math_pow (1 + r) n - 1)
     else jsdiv L (inject_Z n))
    = calculateMonthlyPayment L (interestRate formData) (loanTerm formData)).
  { unfold calculateMonthlyPayment, Qlt_bool, monthlyRateOf, numberOfPaymentsOf.
    fold r n. destruct (Qle_bool r 0); reflexivity. }
  rewrite Hinline.
  destruct (monthlyPayment_defined L (interestRate formData) _ Hn) as [pay ->].
  destruct (monthlyPayment_defined L (interestRate formData + 1) _ Hn)
    as [hi Hhi].
  destruct (monthlyPayment_defined L (Qmax 0 (interestRate formData - 1)) _ Hn)
    as [lo Hlo].
  cbn [mbind option_bind]. rewrite Hhi, Hlo.
  destruct (Qlt_bool 0 (monthlyOverpayment formData));
    cbn [mbind option_bind]; eauto.
Qed.

(** X2.  The payment on the page and the two rate scenarios come from one
    routine: in every result of [calculateMortgage] the payment computed in
    line (branching on [monthlyInterestRate > 0]) is the value
    [calculateMonthlyPayment] (branching on [monthlyRate <= 0]) returns at
    the form's rate, so a scenario at the form's own rate would show the
    payment itself; [higherRatePayment] is its value one percentage point
    up, [lowerRatePayment] its value one point down, floored at 0. *)
Theorem rate_scenarios_are_payments (formData : MortgageFormData)
    (res : MortgageResults) :
  calculateMortgage formData = Some res ->
  let L := homePrice formData - downPayment formData in
  calculateMonthlyPayment L (interestRate formData) (loanTerm formData)
    = Some (principalAndInterest res) /\
  calculateMonthlyPayment L (interestRate formData + 1) (loanTerm formData)
    = Some (higherRatePayment res) /\
  calculateMonthlyPayment L (Qmax 0 (interestRate formData - 1))
    (loanTerm formData) = Some (lowerRatePayment res) /\
  monthlyPayment res = principalAndInterest res.
Proof.
  intros Hres L.
  destruct (calculateMortgage_inv formData res Hres)
    as (Hpay & Hhi & Hlo & Hmp & _).
  split; [exact Hpay|]. split; [exact Hhi|]. split; [exact Hlo | exact Hmp].
Qed.

Lemma rate_scenarios_are_payments_witness :
  let formData :=
    {| homePrice := 1200; downPayment := 0; loanTerm := 1;
       interestRate := 0; monthlyOverpayment := 70 |} in
  exists res,
    calculateMortgage formData = Some res /\
    calculateMonthlyPayment 1200 0 1 = Some (principalAndInterest res) /\
    calculateMonthlyPayment 1200 (0 + 1) 1 = Some (higherRatePayment res) /\
    calculateMonthlyPayment 1200 (Qmax 0 (0 - 1)) 1
      = Some (lowerRatePayment res) /\
    monthlyPayment res = principalAndInterest res.
Proof.
  intro formData.
  eexists. split; [vm_compute; reflexivity|].
  refine (rate_scenarios_are_payments formData _ _).
  vm_compute. reflexivity.
Defined.

(** X4.  In every result of [calculateMortgage] for a term [>= 0] the new
    term in months lies between 0 and the original number of payments, the
    months saved are their difference (so never negative), and the interest
    saved is the difference of the two interest totals. *)
Theorem overpayment_fields_consistent (formData : MortgageFormData)
    (res : MortgageResults) :
  calculateMortgage formData = Some res ->
  (0 <= loanTerm formData)%Z ->
  (0 <= newLoanTermMonths res <= loanTerm formData * 12)%Z /\
  monthsReduced res = (loanTerm formData * 12 - newLoanTermMonths res)%Z /\
  (0 <= monthsReduced res)%Z /\
  interestSaved res ==
    totalInterest res - totalInterestWithOverpayment res.
Proof.
  intros Hres Hterm.
  destruct (calculateMortgage_inv formData res Hres)
    as (_ & _ & _ & _ & _ & _ & _ & Hover).
  cbv zeta in Hover.
  destruct (Qlt_bool 0 (monthlyOverpayment formData)).
  - destruct Hover as (Hti & Hsaved & Hnew & Hred).
    pose proof (calculateWithOverpayment_months
                  (homePrice formData - downPayment formData)
                  (interestRate formData / 100 / 12)
                  (principalAndInterest res) (monthlyOverpayment formData)
                  (loanTerm formData * 12) ltac:(lia)) as Hb.
    rewrite Hnew, Hred, Hsaved, Hti.
    split; [lia|]. split; [lia|]. split; [lia|]. reflexivity.
  - destruct Hover as (Hti & Hsaved & Hnew & Hred).
    rewrite Hnew, Hred, Hsaved, Hti.
    split; [lia|]. split; [lia|]. split; [lia|]. ring.
Qed.

Lemma overpayment_fields_consistent_witness :
  exists res,
    calculateMortgage
      {| homePrice := 1200; downPayment := 0; loanTerm := 1;
         interestRate := 0; monthlyOverpayment := 70 |} = Some res /\
    (0 <= 1)%Z /\
    (0 <= newLoanTermMonths res <= 1 * 12)%Z /\
    monthsReduced res = (1 * 12 - newLoanTermMonths res)%Z /\
    (0 <= monthsReduced res)%Z /\
    interestSaved res ==
      totalInterest res - totalInterestWithOverpayment res.
Proof.
  eexists. split; [vm_compute; reflexivity|].
  split; [discriminate|].
  refine (overpayment_fields_consistent
            {| homePrice := 1200; downPayment := 0; loanTerm := 1;
               interestRate := 0; monthlyOverpayment := 70 |} _ _ _).
  - vm_compute. reflexivity.
  - discriminate.
Defined.





Lemma loopBody_balance_mono (rate payment o1 o2 : Q) (s1 s2 : LoopState) :
  -1 <= rate -> o2 <= o1 -> balance s1 <= balance s2 ->
  balance (loopBody rate payment o1 s1) <= balance (loopBody rate payment o2 s2).
Proof.
  intros Hr Ho Hb. unfold loopBody.
  set (b1 := balance s1 - (payment - balance s1 * rate + o1)).
  set (b2 := balance s2 - (payment - balance s2 * rate + o2)).
  assert (H12 : b1 <= b2).
  { unfold b1, b2.
    assert (H : 0 <= (balance s2 - balance s1) * (1 + rate))
      by (apply Qmult_le_0_compat; lra).
    lra. }
  destruct (Qlt_bool b1 0) eqn:E1; destruct (Qlt_bool b2 0) eqn:E2;
    cbn [balance].
  - lra.
  - apply Qlt_bool_false in E2. exact E2.
  - apply Qlt_bool_false in E1. apply Qlt_bool_true in E2. lra.
  - exact H12.
Qed.

Lemma whileLoop_months_antitone (fuel : nat) (rate payment o1 o2 : Q)
    (term : Z) (s1 s2 : LoopState) :
  -1 <= rate -> o2 <= o1 ->
  month s1 = month s2 -> balance s1 <= balance s2 -> (month s2 <= term)%Z ->
  (month (whileLoop fuel rate payment o1 term s1)
   <= month (whileLoop fuel rate payment o2 term s2))%Z.
Proof.
  intros Hr Ho. revert s1 s2.
  induction fuel as [|fuel IH]; intros s1 s2 Hm Hb Hle.
  - simpl. lia.
  - cbn [whileLoop].
    destruct (Qlt_bool 0 (balance s1) && (month s1 <? term)%Z) eqn:G1.
    + apply andb_true_iff in G1 as [G1b G1m].
      apply Qlt_bool_true in G1b. apply Z.ltb_lt in G1m.
      assert (G2b : Qlt_bool 0 (balance s2) = true)
        by (apply Qlt_bool_true; lra).
      assert (G2m : (month s2 <? term)%Z = true)
        by (apply Z.ltb_lt; lia).
      rewrite G2b, G2m. cbn [andb].
      apply IH.
      * rewrite !loopBody_month. lia.
      * now apply loopBody_balance_mono.
      * rewrite loopBody_month. lia.
    + pose proof (whileLoop_month_le rate payment o2 term (S fuel) s2 Hle)
        as Hmono.
      cbn [whileLoop] in Hmono. lia.
Qed.

(** X6.  A larger overpayment never lengthens the loan: for a periodic rate
    [>= -1] and a term [>= 0], the simulator run with overpayment [o1 >= o2]
    takes at most as many months as the run with [o2]. *)
Theorem larger_overpayment_not_longer
    (P rate payment o1 o2 : Q) (term : Z) :
  -1 <= rate -> o2 <= o1 -> (0 <= term)%Z ->
  (months (calculateWithOverpayment P rate payment o1 term)
   <= months (calculateWithOverpayment P rate payment o2 term))%Z.
Proof.
  intros Hr Ho Hterm. unfold calculateWithOverpayment. cbn [months].
  apply whileLoop_months_antitone; cbn [month balance];
    first [assumption | reflexivity | lra | lia].
Qed.

Lemma larger_overpayment_not_longer_witness :
  -1 <= 0 /\ 70 <= 200 /\ (0 <= 12)%Z /\
  (months (calculateWithOverpayment 1200 0 100 200 12)
   <= months (calculateWithOverpayment 1200 0 100 70 12))%Z.
Proof.
  assert (H1 : -1 <= 0) by discriminate.
  assert (H2 : 70 <= 200) by discriminate.
  assert (H3 : (0 <= 12)%Z) by discriminate.
  repeat (split; [assumption|]).
  exact (larger_overpayment_not_longer 1200 0 100 200 70 12 H1 H2 H3).
Defined.

(** *** The simulator without overpayment and the closed form *)



End MortgageMore.

(** ** Purchasing power page: the whole input range *)

Module PurchasingPowerMore.
Import PurchasingPower PurchasingPowerFacts.

Section Calculation.

Variable table : gmap Z Q.
Variable currentYear : Z.
Variable Math_pow_root : Q -> Z -> option Q.

Local Abbreviation validStart fd := (validStartYearOf table fd).
Local Abbreviation validEnd fd := (validEndYearOf table currentYear fd).

Lemma validEnd_cases (formData : FormData) :
  ((validStart formData <= currentYear)%Z /\
   (validStart formData <= validEnd formData)%Z) \/
  ((currentYear < validStart formData)%Z /\
   validEnd formData = currentYear).
Proof.
  unfold validEndYearOf. lia.
Qed.

(** Whatever the years in the form, once the clamped start year is not after
    the current year the computation yields the walk from the clamped start
    year to the clamped end year. *)
Lemma calculatePurchasingPower_clamped (formData : FormData) :
  (validStart formData <= currentYear)%Z ->
  let amount := amount formData in
  let start := validStart formData in
  let yearDiff := (validEnd formData - start)%Z in
  let adjusted := amountAt table amount start (Z.to_nat yearDiff) in
  calculatePurchasingPower table currentYear Math_pow_root formData =
  Some {| originalAmount := amount;
          adjustedAmount := adjusted;
          percentageChange :=
            q ← jsdiv (adjusted - amount) amount; Some (q * 100);
          inflationFactor := jsdiv adjusted amount;
          averageInflation :=
            a ← (if (0 <? yearDiff)%Z then
                   ratio ← jsdiv adjusted amount;
                   root ← Math_pow_root ratio yearDiff;
                   Some (root - 1)
                 else Some 0);
            Some (a * 100);
          yearlyBreakdown :=
            map (entryAt table amount start)
                (seq 0 (S (Z.to_nat yearDiff))) |}.
Proof.
  intros Hcur amt start yearDiff adjusted.
  destruct (validEnd_cases formData) as [[_ Hle] | [Hlt _]]; [|lia].
  unfold calculatePurchasingPower.
  fold amt start. fold yearDiff.
  set (D := Z.to_nat yearDiff) in *.
  replace (Z.to_nat (yearDiff + 1)) with (S D)
    by (unfold D, yearDiff, start; lia).
  pose proof (yearLoop_breakdown table amt start (validEnd formData) (S D) 0)
    as Hloop.
  change (seq 0 0) with (@nil nat) in Hloop. cbn [map Nat.add] in Hloop.
  change (Z.of_nat 0) with 0%Z in Hloop. rewrite Z.add_0_r in Hloop.
  cbn [amountAt] in Hloop.
  specialize (Hloop ltac:(unfold D, yearDiff, start; lia)).
  destruct (yearLoop table (S D) (validEnd formData) start amt [])
    as [leftover breakdown].
  cbn [snd] in Hloop. subst breakdown.
  assert (Hlast : last (map (entryAt table amt start) (seq 0 (S D)))
                  = Some (entryAt table amt start D)).
  { rewrite seq_S, map_app. cbn [map Nat.add]. apply last_snoc. }
  rewrite Hlast. reflexivity.
Qed.

Lemma purchasing_power_fails_aux (formData : FormData) :
  (currentYear < validStart formData)%Z ->
  calculatePurchasingPower table currentYear Math_pow_root formData = None.
Proof.
  intro Hlt.
  destruct (validEnd_cases formData) as [[Hle _] | [_ Hend]]; [lia|].
  unfold calculatePurchasingPower. rewrite Hend.
  replace (Z.to_nat (currentYear - validStart formData + 1)) with 0%nat
    by lia.
  reflexivity.
Qed.

(** X7.  [calculatePurchasingPower] fails to produce a result (reading the
    last element of an empty breakdown throws) exactly when the clamped
    start year, the later of the table's earliest year and the earlier of
    the two form years, lies after the current year. *)
Theorem purchasing_power_fails_iff (formData : FormData) :
  calculatePurchasingPower table currentYear Math_pow_root formData = None
  <->
  (currentYear <
   Z.max (earliestYearOf table)
         (Z.min (startYear formData) (endYear formData)))%Z.
Proof.
  change (Z.max (earliestYearOf table)
            (Z.min (startYear formData) (endYear formData)))
    with (validStart formData).
  split.
  - intro Hnone.
    destruct (Z_lt_le_dec currentYear (validStart formData)) as [|Hle];
      [assumption|].
    rewrite (calculatePurchasingPower_clamped formData Hle) in Hnone.
    discriminate.
  - intro Hlt.
    destruct (validEnd_cases formData) as [[Hle _] | [_ Hend]]; [lia|].
    unfold calculatePurchasingPower. rewrite Hend.
    replace (Z.to_nat (currentYear - validStart formData + 1)) with 0%nat
      by lia.
    reflexivity.
Qed.

(** X8.  A start year that is not before the end year is not an error: when
    the end year lies between the table's earliest year and the current
    year, the result is the single entry of the end year and the adjusted
    amount is the original amount. *)
Theorem start_not_before_end_single_year (formData : FormData) :
  (endYear formData <= startYear formData)%Z ->
  (earliestYearOf table <= endYear formData)%Z ->
  (endYear formData <= currentYear)%Z ->
  exists res,
    calculatePurchasingPower table currentYear Math_pow_root formData
      = Some res /\
    adjustedAmount res = amount formData /\
    yearlyBreakdown res =
      [ {| entryYear := endYear formData;
           entryAmount := amount formData;
           entryInflationRate := rateOrDefault table (endYear formData) |} ].
Proof.
  intros H1 H2 H3.
  assert (Hs : validStart formData = endYear formData)
    by (unfold validStartYearOf, earliestYear; lia).
  assert (He : validEnd formData = endYear formData)
    by (unfold validEndYearOf; rewrite Hs; lia).
  eexists. split.
  - apply calculatePurchasingPower_clamped. lia.
  - cbn [adjustedAmount yearlyBreakdown]. rewrite He, Hs, Z.sub_diag.
    change (Z.to_nat 0) with 0%nat. cbn [amountAt seq map entryAt].
    split; [reflexivity|]. unfold entryAt. cbn [amountAt].
    change (Z.of_nat 0) with 0%Z. rewrite Z.add_0_r. reflexivity.
Qed.

Lemma amountAt_linear (amount : Q) (start : Z) (k : nat) :
  amountAt table amount start k == amount * amountAt table 1 start k.
Proof.
  induction k as [|k IH]; cbn [amountAt]; [ring | rewrite IH; ring].
Qed.

(** X9.  The percentage change and the inflation factor depend on the years
    only: two forms with the same years and amounts other than 0 get equal
    percentage changes and equal inflation factors, and their adjusted
    amounts are in the proportion of the original amounts. *)
Theorem percentage_change_independent_of_amount (fd1 fd2 : FormData) :
  startYear fd1 = startYear fd2 -> endYear fd1 = endYear fd2 ->
  ~ amount fd1 == 0 -> ~ amount fd2 == 0 ->
  (validStart fd1 <= currentYear)%Z ->
  exists res1 res2 p1 p2 f1 f2,
    calculatePurchasingPower table currentYear Math_pow_root fd1 = Some res1 /\
    calculatePurchasingPower table currentYear Math_pow_root fd2 = Some res2 /\
    percentageChange res1 = Some p1 /\ percentageChange res2 = Some p2 /\
    inflationFactor res1 = Some f1 /\ inflationFactor res2 = Some f2 /\
    p1 == p2 /\ f1 == f2 /\
    adjustedAmount res1 * amount fd2 == adjustedAmount res2 * amount fd1.
Proof.
  intros Hs He Ha1 Ha2 Hcur.
  assert (Hvs : validStart fd2 = validStart fd1)
    by (unfold validStartYearOf; rewrite Hs, He; reflexivity).
  assert (Hve : validEnd fd2 = validEnd fd1)
    by (unfold validEndYearOf; rewrite Hvs, He; reflexivity).
  do 2 eexists.
  exists ((amountAt table (amount fd1) (validStart fd1)
             (Z.to_nat (validEnd fd1 - validStart fd1)) - amount fd1)
          / amount fd1 * 100).
  exists ((amountAt table (amount fd2) (validStart fd1)
             (Z.to_nat (validEnd fd1 - validStart fd1)) - amount fd2)
          / amount fd2 * 100).
  do 2 eexists.
  split; [apply calculatePurchasingPower_clamped; exact Hcur|].
  split; [apply calculatePurchasingPower_clamped; lia|].
  cbn [percentageChange inflationFactor adjustedAmount].
  rewrite Hvs, Hve.
  rewrite !jsdiv_nonzero by assumption. cbn [mbind option_bind].
  repeat (split; [reflexivity|]).
  rewrite (amountAt_linear (amount fd1)), (amountAt_linear (amount fd2)).
  split; [field; split; assumption|].
  split; [field; split; assumption|]. ring.
Qed.

End Calculation.

Lemma purchasing_power_fails_iff_witness :
  let formData := {| amount := 1000; startYear := 2000; endYear := 2024 |} in
  (1970 <
   Z.max (earliestYearOf ukInflationData)
         (Z.min (startYear formData) (endYear formData)))%Z /\
  calculatePurchasingPower ukInflationData 1970 (fun _ _ => None) formData
  = None.
Proof.
  intro formData.
  assert (H : (1970 <
               Z.max (earliestYearOf ukInflationData)
                     (Z.min (startYear formData) (endYear formData)))%Z)
    by (vm_compute; reflexivity).
  split; [exact H|].
  exact (proj2 (purchasing_power_fails_iff ukInflationData 1970
                  (fun _ _ => None) formData) H).
Defined.

Lemma start_not_before_end_single_year_witness :
  let formData := {| amount := 1000; startYear := 2010; endYear := 2000 |} in
  (2000 <= 2010)%Z /\ (earliestYearOf ukInflationData <= 2000)%Z /\
  (2000 <= 2026)%Z /\
  exists res,
    calculatePurchasingPower ukInflationData 2026 (fun _ _ => None) formData
      = Some res /\
    adjustedAmount res = 1000 /\
    yearlyBreakdown res =
      [ {| entryYear := 2000; entryAmount := 1000;
           entryInflationRate := rateOrDefault ukInflationData 2000 |} ].
Proof.
  intro formData.
  assert (H1 : (2000 <= 2010)%Z) by discriminate.
  assert (H2 : (earliestYearOf ukInflationData <= 2000)%Z)
    by (vm_compute; discriminate).
  assert (H3 : (2000 <= 2026)%Z) by discriminate.
  repeat (split; [assumption|]).
  exact (start_not_before_end_single_year ukInflationData 2026
           (fun _ _ => None) formData H1 H2 H3).
Defined.

Lemma percentage_change_independent_of_amount_witness :
  let fd1 := {| amount := 1000; startYear := 2000; endYear := 2024 |} in
  let fd2 := {| amount := 250; startYear := 2000; endYear := 2024 |} in
  (~ 1000 == 0) /\ (~ 250 == 0) /\
  (validStartYearOf ukInflationData fd1 <= 2026)%Z /\
  exists res1 res2 p1 p2,
    calculatePurchasingPower ukInflationData 2026 (fun _ _ => None) fd1
      = Some res1 /\
    calculatePurchasingPower ukInflationData 2026 (fun _ _ => None) fd2
      = Some res2 /\
    percentageChange res1 = Some p1 /\ percentageChange res2 = Some p2 /\
    p1 == p2.
Proof.
  intros fd1 fd2.
  assert (H1 : ~ 1000 == 0) by (intro H; discriminate H).
  assert (H2 : ~ 250 == 0) by (intro H; discriminate H).
  assert (H3 : (validStartYearOf ukInflationData fd1 <= 2026)%Z)
    by (vm_compute; discriminate).
  repeat (split; [assumption|]).
  destruct (percentage_change_independent_of_amount ukInflationData 2026
              (fun _ _ => None) fd1 fd2 eq_refl eq_refl H1 H2 H3)
    as (res1 & res2 & p1 & p2 & _ & _ & E1 & E2 & P1 & P2 & _ & _ & Hp & _).
  exists res1, res2, p1, p2. repeat split; assumption.
Defined.

End PurchasingPowerMore.

(** ** Pension page: errors, shape and growth of a projection *)

Module PensionMore.
Import Pension PensionFacts.

(** X10.  [calculateProjection] throws (and sets no result) exactly when the
    retirement age is not above the current age. *)
Theorem projection_fails_iff (formData : FormData) (currentYear : Z) :
  calculateProjection formData currentYear = None <->
  (retirementAge formData <= currentAge formData)%Z.
Proof.
  split.
  - intro Hnone.
    destruct (Z_lt_le_dec (currentAge formData) (retirementAge formData))
      as [Hlt | Hle]; [|exact Hle].
    rewrite (calculateProjection_result formData currentYear Hlt) in Hnone.
    discriminate.
  - intro Hle. unfold calculateProjection, yearsToRetirement.
    test_holds (retirementAge formData - currentAge formData <=? 0)%Z.
    reflexivity.
Qed.

Lemma projection_fails_iff_witness :
  let formData :=
    {| currentAge := 68; retirementAge := 30; currentPension := 50000;
       monthlyContribution := 500; employerContribution := 300;
       stocksAllocation := 70; bondsAllocation := 20; cashAllocation := 10;
       stocksReturn := 7; bondsReturn := 3; cashReturn := 15 # 10;
       inflationRate := 2 |} in
  (retirementAge formData <= currentAge formData)%Z /\
  calculateProjection formData 2026 = None.
Proof.
  intro formData.
  assert (H : (retirementAge formData <= currentAge formData)%Z)
    by discriminate.
  split; [exact H|].
  exact (proj2 (projection_fails_iff formData 2026) H).
Defined.

(** X11.  A projection has one entry per year from the current age to the
    retirement age inclusive: entry [k] carries age [currentAge + k] and
    calendar year [currentYear + k], the last entry carries the retirement
    age and the final nominal value, and the final real value is the final
    nominal value divided by [(1 + inflationRate/100)^years]. *)
Theorem projection_shape (formData : FormData) (currentYear : Z) :
  (currentAge formData < retirementAge formData)%Z ->
  exists res final,
    calculateProjection formData currentYear = Some res /\
    Z.of_nat (length (yearlyBreakdown res))
      = (retirementAge formData - currentAge formData + 1)%Z /\
    (forall (k : nat) (entry : YearEntry),
       yearlyBreakdown res !! k = Some entry ->
       age entry = (currentAge formData + Z.of_nat k)%Z /\
       year entry = (currentYear + Z.of_nat k)%Z) /\
    last (yearlyBreakdown res) = Some final /\
    age final = retirementAge formData /\
    pensionValue final = finalPensionNominal res /\
    finalPensionReal res =
      jsdiv (finalPensionNominal res)
            ((1 + inflationRate formData / 100)
               ^ (retirementAge formData - currentAge formData)).
Proof.
  intro Hage.
  set (N := Z.to_nat (yearsToRetirement formData)).
  assert (HN : Z.of_nat N = (retirementAge formData - currentAge formData)%Z)
    by (unfold N, yearsToRetirement; lia).
  eexists. exists (entryAt formData currentYear N).
  split; [apply calculateProjection_result; exact Hage|].
  cbn [yearlyBreakdown finalPensionNominal finalPensionReal]. fold N.
  split; [rewrite length_map, length_seq; lia|].
  split.
  { intros k entry Hlook.
    apply lookup_map_seq_Some in Hlook as [_ ->]. split; reflexivity. }
  split; [rewrite seq_S, map_app; cbn [map Nat.add]; apply last_snoc|].
  split; [cbn [entryAt age]; lia|].
  split; [reflexivity|].
  cbn [entryAt realPensionValue]. unfold Math_pow. rewrite HN. reflexivity.
Qed.

Lemma projection_shape_witness :
  (currentAge initialFormData < retirementAge initialFormData)%Z /\
  exists res final,
    calculateProjection initialFormData 2026 = Some res /\
    Z.of_nat (length (yearlyBreakdown res)) = 39%Z /\
    last (yearlyBreakdown res) = Some final /\
    age final = 68%Z.
Proof.
  split; [reflexivity|].
  destruct (projection_shape initialFormData 2026 eq_refl)
    as (res & final & Hres & Hlen & _ & Hlast & Hage & _).
  exists res, final. repeat split; assumption.
Defined.

(** The balance after [k] years in closed form. *)
Lemma valueAt_closed (formData : FormData) (k : nat) :
  0 < 1 + weightedReturn formData / 100 ->
  valueAt formData k ==
  currentPension formData * (1 + weightedReturn formData / 100) ^ Z.of_nat k
  + (annualContributionOf formData + annualEmployerContributionOf formData)
    * geomSum (1 + weightedReturn formData / 100) k.
Proof.
  intro Hg. induction k as [|k IH].
  - change (Z.of_nat 0) with 0%Z. cbn [valueAt geomSum].
    change ((1 + weightedReturn formData / 100) ^ 0) with 1. ring.
  - rewrite MortgageFacts.Qpower_succ_nat by lra.
    cbn [valueAt geomSum]. rewrite IH. ring.
Qed.

(** X12.  The final nominal value has the closed form of a future value:
    with a positive blended return [w] (in percent) and [g = 1 + w/100] it
    is [pot * g^N + C * (g^N - 1) / (w/100)], and with a blended return of 0
    it is [pot + N * C], where [N] is the number of years and [C] the sum of
    both annual contributions. *)
Theorem final_value_closed_form (formData : FormData) (currentYear : Z) :
  (currentAge formData < retirementAge formData)%Z ->
  0 <= weightedReturn formData ->
  let N := (retirementAge formData - currentAge formData)%Z in
  let C := monthlyContribution formData * 12
           + employerContribution formData * 12 in
  let g := 1 + weightedReturn formData / 100 in
  exists res,
    calculateProjection formData currentYear = Some res /\
    (0 < weightedReturn formData ->
       finalPensionNominal res ==
       currentPension formData * g ^ N
       + C * (g ^ N - 1) / (weightedReturn formData / 100)) /\
    (weightedReturn formData == 0 ->
       finalPensionNominal res == currentPension formData + inject_Z N * C).
Proof.
  intros Hage Hw N C g.
  eexists. split; [apply calculateProjection_result; exact Hage|].
  cbn [finalPensionNominal].
  set (k := Z.to_nat (yearsToRetirement formData)).
  assert (Hk : Z.of_nat k = N) by (unfold k, N, yearsToRetirement; lia).
  assert (Hw100 : weightedReturn formData / 100
                  == weightedReturn formData * (1 # 100)) by field.
  assert (Hg : 0 < g) by (unfold g; lra).
  pose proof (valueAt_closed formData k Hg) as Hclosed.
  rewrite Hk in Hclosed. fold g in Hclosed.
  change (annualContributionOf formData + annualEmployerContributionOf formData)
    with C in Hclosed.
  split.
  - intro Hpos.
    pose proof (MortgageMore.geomSum_closed g k ltac:(lra)) as Hsum.
    rewrite Hk in Hsum.
    assert (Hgm : g - 1 == weightedReturn formData / 100) by (unfold g; ring).
    rewrite Hgm in Hsum. rewrite Hclosed, <- Hsum. field. lra.
  - intro Hzero.
    assert (Hg1 : g == 1) by (unfold g; lra).
    rewrite Hclosed, (MortgageMore.geomSum_one g k Hg1), Hk.
    rewrite Hg1, Qpower_1. ring.
Qed.

Lemma final_value_closed_form_witness :
  (currentAge initialFormData < retirementAge initialFormData)%Z /\
  0 <= weightedReturn initialFormData /\
  exists res,
    calculateProjection initialFormData 2026 = Some res /\
    finalPensionNominal res ==
      currentPension initialFormData
        * (1 + weightedReturn initialFormData / 100) ^ 38
      + (monthlyContribution initialFormData * 12
         + employerContribution initialFormData * 12)
        * ((1 + weightedReturn initialFormData / 100) ^ 38 - 1)
        / (weightedReturn initialFormData / 100).
Proof.
  assert (H1 : (currentAge initialFormData < retirementAge initialFormData)%Z)
    by reflexivity.
  assert (H2 : 0 <= weightedReturn initialFormData)
    by (vm_compute; discriminate).
  split; [exact H1|]. split; [exact H2|].
  destruct (final_value_closed_form initialFormData 2026 H1 H2)
    as (res & Hres & Hpos & _).
  exists res. split; [exact Hres|].
  apply Hpos. vm_compute. reflexivity.
Defined.

Lemma valueAt_nondecreasing (formData : FormData) (k : nat) :
  0 <= currentPension formData -> 0 <= weightedReturn formData ->
  0 <= monthlyContribution formData -> 0 <= employerContribution formData ->
  0 <= valueAt formData k /\ valueAt formData k <= valueAt formData (S k).
Proof.
  intros Hpot Hw Hc He.
  assert (Hw100 : 0 <= weightedReturn formData / 100).
  { assert (E : weightedReturn formData / 100
                == weightedReturn formData * (1 # 100)) by field. lra. }
  assert (Hstep : forall j, 0 <= valueAt formData j ->
                            valueAt formData j <= valueAt formData (S j)).
  { intros j Hj. cbn [valueAt].
    unfold annualContributionOf, annualEmployerContributionOf.
    assert (0 <= valueAt formData j * (weightedReturn formData / 100))
      by (apply Qmult_le_0_compat; assumption).
    lra. }
  assert (Hnonneg : 0 <= valueAt formData k).
  { induction k as [|k IH]; [exact Hpot|].
    pose proof (Hstep k IH). lra. }
  split; [exact Hnonneg | exact (Hstep k Hnonneg)].
Qed.

Lemma growthAt_nonneg (formData : FormData) (k : nat) :
  0 <= currentPension formData -> 0 <= weightedReturn formData ->
  0 <= monthlyContribution formData -> 0 <= employerContribution formData ->
  0 <= growthAt formData k.
Proof.
  intros Hpot Hw Hc He. induction k as [|k IH]; cbn [growthAt]; [lra|].
  destruct (valueAt_nondecreasing formData k Hpot Hw Hc He) as [Hv _].
  assert (Hw100 : 0 <= weightedReturn formData / 100).
  { assert (E : weightedReturn formData / 100
                == weightedReturn formData * (1 # 100)) by field. lra. }
  assert (0 <= valueAt formData k * (weightedReturn formData / 100))
    by (apply Qmult_le_0_compat; assumption).
  lra.
Qed.

(** X13.  With a pot, a blended return and contributions that are not
    negative, the pension value never falls from one year of the breakdown
    to the next, the final value is at least the starting pot, and the total
    investment growth is not negative. *)
Theorem projection_never_falls (formData : FormData) (currentYear : Z) :
  (currentAge formData < retirementAge formData)%Z ->
  0 <= currentPension formData -> 0 <= weightedReturn formData ->
  0 <= monthlyContribution formData -> 0 <= employerContribution formData ->
  exists res,
    calculateProjection formData currentYear = Some res /\
    (forall (k : nat) (entry next : YearEntry),
       yearlyBreakdown res !! k = Some entry ->
       yearlyBreakdown res !! S k = Some next ->
       pensionValue entry <= pensionValue next) /\
    currentPension formData <= finalPensionNominal res /\
    0 <= totalInvestmentGrowth res.
Proof.
  intros Hage Hpot Hw Hc He.
  eexists. split; [apply calculateProjection_result; exact Hage|].
  cbn [yearlyBreakdown finalPensionNominal totalInvestmentGrowth].
  split; [|split].
  - intros k entry next Hk HSk.
    apply lookup_map_seq_Some in Hk as [_ ->].
    apply lookup_map_seq_Some in HSk as [_ ->].
    cbn [entryAt pensionValue].
    apply valueAt_nondecreasing; assumption.
  - generalize (Z.to_nat (yearsToRetirement formData)). intro n.
    induction n as [|n IH]; [cbn [valueAt]; lra|].
    destruct (valueAt_nondecreasing formData n Hpot Hw Hc He). lra.
  - apply growthAt_nonneg; assumption.
Qed.

Lemma projection_never_falls_witness :
  (currentAge initialFormData < retirementAge initialFormData)%Z /\
  0 <= currentPension initialFormData /\
  0 <= weightedReturn initialFormData /\
  0 <= monthlyContribution initialFormData /\
  0 <= employerContribution initialFormData /\
  exists res,
    calculateProjection initialFormData 2026 = Some res /\
    currentPension initialFormData <= finalPensionNominal res /\
    0 <= totalInvestmentGrowth res.
Proof.
  assert (H1 : (currentAge initialFormData < retirementAge initialFormData)%Z)
    by reflexivity.
  assert (H2 : 0 <= currentPension initialFormData) by discriminate.
  assert (H3 : 0 <= weightedReturn initialFormData)
    by (vm_compute; discriminate).
  assert (H4 : 0 <= monthlyContribution initialFormData) by discriminate.
  assert (H5 : 0 <= employerContribution initialFormData) by discriminate.
  repeat (split; [assumption|]).
  destruct (projection_never_falls initialFormData 2026 H1 H2 H3 H4 H5)
    as (res & Hres & _ & Hfinal & Hgrowth).
  exists res. repeat split; assumption.
Defined.

(** X14.  With an inflation rate that is not negative and inputs as in X13,
    the real value of every year is a finite number not above the nominal
    value of that year. *)
Theorem real_value_at_most_nominal (formData : FormData) (currentYear : Z) :
  (currentAge formData < retirementAge formData)%Z ->
  0 <= inflationRate formData ->
  0 <= currentPension formData -> 0 <= weightedReturn formData ->
  0 <= monthlyContribution formData -> 0 <= employerContribution formData ->
  exists res,
    calculateProjection formData currentYear = Some res /\
    forall (k : nat) (entry : YearEntry),
      yearlyBreakdown res !! k = Some entry ->
      exists real,
        realPensionValue entry = Some real /\
        0 <= real /\ real <= pensionValue entry.
Proof.
  intros Hage Hinfl Hpot Hw Hc He.
  eexists. split; [apply calculateProjection_result; exact Hage|].
  cbn [yearlyBreakdown]. intros k entry Hlook.
  apply lookup_map_seq_Some in Hlook as [_ ->].
  cbn [entryAt realPensionValue pensionValue]. unfold Math_pow.
  destruct (valueAt_nondecreasing formData k Hpot Hw Hc He) as [Hv _].
  assert (Hbase : 1 <= 1 + inflationRate formData / 100).
  { assert (E : inflationRate formData / 100
                == inflationRate formData * (1 # 100)) by field. lra. }
  pose proof (Qpower_1_le _ (Z.of_nat k) Hbase ltac:(lia)) as Hpow.
  set (p := (1 + inflationRate formData / 100) ^ Z.of_nat k) in *.
  set (v := valueAt formData k) in *.
  rewrite jsdiv_nonzero by lra.
  eexists. split; [reflexivity|].
  split.
  - apply Qle_shift_div_l; lra.
  - apply Qle_shift_div_r; [lra|].
    assert (0 <= v * (p - 1)) by (apply Qmult_le_0_compat; lra). lra.
Qed.

Lemma real_value_at_most_nominal_witness :
  (currentAge initialFormData < retirementAge initialFormData)%Z /\
  0 <= inflationRate initialFormData /\
  0 <= currentPension initialFormData /\
  0 <= weightedReturn initialFormData /\
  0 <= monthlyContribution initialFormData /\
  0 <= employerContribution initialFormData /\
  exists res,
    calculateProjection initialFormData 2026 = Some res /\
    forall (k : nat) (entry : YearEntry),
      yearlyBreakdown res !! k = Some entry ->
      exists real,
        realPensionValue entry = Some real /\
        0 <= real /\ real <= pensionValue entry.
Proof.
  assert (H1 : (currentAge initialFormData < retirementAge initialFormData)%Z)
    by reflexivity.
  assert (H0 : 0 <= inflationRate initialFormData) by discriminate.
  assert (H2 : 0 <= currentPension initialFormData) by discriminate.
  assert (H3 : 0 <= weightedReturn initialFormData)
    by (vm_compute; discriminate).
  assert (H4 : 0 <= monthlyContribution initialFormData) by discriminate.
  assert (H5 : 0 <= employerContribution initialFormData) by discriminate.
  repeat (split; [assumption|]).
  exact (real_value_at_most_nominal initialFormData 2026 H1 H0 H2 H3 H4 H5).
Defined.

(** X15.  Clicking Calculate once the form-data effect has run changes
    nothing: the button is disabled whenever the effect refused to compute,
    and otherwise the click computes the result the effect has already
    set. *)
Theorem click_after_effect_is_idle (currentYear : Z) (formData : FormData)
    (st : PageState) :
  calculateClick currentYear formData (formDataEffect currentYear formData st)
  = formDataEffect currentYear formData st.
Proof.
  unfold formDataEffect.
  destruct (negb (Qeq_bool
              (stocksAllocation formData + bondsAllocation formData
               + cashAllocation formData) 100)); [reflexivity|].
  unfold calculateClick, calculateDisabled. cbn [allocationError results orb].
  destruct (retirementAge formData <=? currentAge formData)%Z eqn:E;
    [reflexivity|].
  apply Z.leb_gt in E.
  rewrite (calculateProjection_result formData currentYear E). reflexivity.
Qed.

End PensionMore.

(** ** Cursor position after reformatting *)

Module CursorFacts.
Import Cursor.

Lemma countDigits_cons (c : ascii) (s : list ascii) :
  countDigits (c :: s) =
  ((if negb (isComma c) then 1 else 0) + countDigits s)%nat.
Proof.
  unfold countDigits. cbn [List.filter].
  destruct (negb (isComma c)); reflexivity.
Qed.

Lemma commas_plus_digits (s : list ascii) :
  (countCommas s + countDigits s)%nat = length s.
Proof.
  unfold countCommas, countDigits.
  induction s as [|c s IH]; [reflexivity|].
  cbn [List.filter]. destruct (isComma c); cbn [negb length]; lia.
Qed.

Lemma cursorLoop_bound (rest : list ascii) (i counted target : nat) :
  (fst (cursorLoop rest i counted target) <= i + length rest)%nat.
Proof.
  revert i counted. induction rest as [|c rest IH]; intros i counted.
  - cbn. lia.
  - cbn [cursorLoop length].
    destruct (_ =? target)%nat; cbn [fst]; [lia|].
    specialize (IH (S i) (if negb (isComma c) then S counted else counted)).
    lia.
Qed.

(** Too few digits left: the loop runs to the end without a break. *)
Lemma cursorLoop_exhausted (rest : list ascii) (i counted target : nat) :
  (counted + countDigits rest < target)%nat ->
  cursorLoop rest i counted target = (0%nat, (counted + countDigits rest)%nat).
Proof.
  revert i counted. induction rest as [|c rest IH]; intros i counted Hlt.
  - cbn. now rewrite Nat.add_0_r.
  - rewrite countDigits_cons in Hlt |- *. cbn [cursorLoop].
    destruct (negb (isComma c)).
    + replace (S counted =? target)%nat with false
        by (symmetry; apply Nat.eqb_neq; lia).
      rewrite IH by lia. f_equal. lia.
    + replace (counted =? target)%nat with false
        by (symmetry; apply Nat.eqb_neq; lia).
      rewrite IH by lia. f_equal.
Qed.

(** Enough digits left: the loop breaks just behind the digit that brings
    the count to the target. *)
Lemma cursorLoop_found (rest : list ascii) (i counted target : nat) :
  (counted < target)%nat -> (target <= counted + countDigits rest)%nat ->
  exists (j : nat) (c : ascii),
    cursorLoop rest i counted target = ((i + j + 1)%nat, target) /\
    rest !! j = Some c /\ isComma c = false /\
    (counted + countDigits (take (S j) rest))%nat = target.
Proof.
  revert i counted. induction rest as [|c rest IH]; intros i counted Hlt Hle.
  - cbn in Hle. lia.
  - rewrite countDigits_cons in Hle. cbn [cursorLoop].
    destruct (isComma c) eqn:Hc; cbn [negb] in *.
    + replace (counted =? target)%nat with false
        by (symmetry; apply Nat.eqb_neq; lia).
      destruct (IH (S i) counted Hlt ltac:(lia)) as (j & d & Hrun & Hj & Hd & Hn).
      exists (S j), d. rewrite Hrun.
      split; [f_equal; lia|]. split; [exact Hj|]. split; [exact Hd|].
      change (take (S (S j)) (c :: rest)) with (c :: take (S j) rest).
      rewrite countDigits_cons, Hc. cbn [negb]. lia.
    + destruct (Nat.eqb_spec (S counted) target) as [Heq | Hne].
      * exists 0%nat, c. split; [f_equal; lia|].
        split; [reflexivity|]. split; [exact Hc|].
        change (take 1 (c :: rest)) with [c].
        unfold countDigits. cbn [List.filter]. rewrite Hc.
        cbn [negb length]. lia.
      * destruct (IH (S i) (S counted) ltac:(lia) ltac:(lia))
          as (j & d & Hrun & Hj & Hd & Hn).
        exists (S j), d. rewrite Hrun.
        split; [f_equal; lia|]. split; [exact Hj|]. split; [exact Hd|].
        change (take (S (S j)) (c :: rest)) with (c :: take (S j) rest).
        rewrite countDigits_cons, Hc. cbn [negb]. lia.
Qed.

(** X16.  The cursor position returned is always a position inside the new
    text: it is at most the length of [newValue]. *)
Theorem cursor_within_new_value (value oldValue : list ascii)
    (oldPosition : option nat) (newValue : list ascii) :
  (calculateCursorPosition value oldValue oldPosition newValue
   <= length newValue)%nat.
Proof.
  unfold calculateCursorPosition.
  destruct oldPosition as [p|]; [|lia].
  pose proof (cursorLoop_bound newValue 0 0
                (p - countCommas (take p oldValue))) as Hb.
  destruct (cursorLoop newValue 0 0 (p - countCommas (take p oldValue)))
    as [pos counted].
  cbn [fst] in Hb. destruct (counted <? _)%nat; lia.
Qed.

(** X17.  The cursor stays behind the same digit: when the old cursor is
    inside the old text with [d > 0] characters other than commas before it
    and the new text has at least [d] such characters, the new position is
    directly behind the [d]-th of them, so exactly [d] characters other than
    commas precede the new cursor. *)
Theorem cursor_keeps_digit_count (value oldValue : list ascii)
    (oldPosition : nat) (newValue : list ascii) :
  (oldPosition <= length oldValue)%nat ->
  (0 < countDigits (take oldPosition oldValue))%nat ->
  (countDigits (take oldPosition oldValue) <= countDigits newValue)%nat ->
  let newPosition :=
    calculateCursorPosition value oldValue (Some oldPosition) newValue in
  countDigits (take newPosition newValue)
    = countDigits (take oldPosition oldValue) /\
  (0 < newPosition)%nat /\
  exists c, newValue !! (newPosition - 1)%nat = Some c /\ isComma c = false.
Proof.
  intros Hin Hpos Henough newPosition.
  set (d := countDigits (take oldPosition oldValue)) in *.
  assert (Hd : (oldPosition - countCommas (take oldPosition oldValue))%nat = d).
  { pose proof (commas_plus_digits (take oldPosition oldValue)) as H.
    rewrite length_take in H. unfold d. lia. }
  unfold newPosition, calculateCursorPosition. rewrite Hd.
  destruct (cursorLoop_found newValue 0 0 d Hpos Henough)
    as (j & c & Hrun & Hj & Hc & Hcount).
  rewrite Hrun. rewrite Nat.ltb_irrefl.
  replace (0 + j + 1)%nat with (S j) by lia.
  split; [lia|]. split; [lia|].
  exists c. replace (S j - 1)%nat with j by lia. split; assumption.
Qed.

Lemma cursor_keeps_digit_count_witness :
  let oldValue := String.list_ascii_of_string "1234" in
  let newValue := String.list_ascii_of_string "1,234" in
  (3 <= length oldValue)%nat /\
  (0 < countDigits (take 3 oldValue))%nat /\
  (countDigits (take 3 oldValue) <= countDigits newValue)%nat /\
  countDigits (take (calculateCursorPosition oldValue oldValue (Some 3%nat)
                       newValue) newValue)
    = countDigits (take 3 oldValue).
Proof.
  intros oldValue newValue.
  assert (H1 : (3 <= length oldValue)%nat) by (vm_compute; lia).
  assert (H2 : (0 < countDigits (take 3 oldValue))%nat) by (vm_compute; lia).
  assert (H3 : (countDigits (take 3 oldValue) <= countDigits newValue)%nat)
    by (vm_compute; lia).
  repeat (split; [assumption|]).
  exact (proj1 (cursor_keeps_digit_count oldValue oldValue 3 newValue
                  H1 H2 H3)).
Defined.

(** X18.  The cursor goes to the end of the new text when there is no old
    position, and when the new text has fewer characters other than commas
    than the old cursor had before it. *)
Theorem cursor_falls_back_to_end (value oldValue : list ascii)
    (oldPosition : nat) (newValue : list ascii) :
  calculateCursorPosition value oldValue None newValue = length newValue /\
  ((countDigits newValue
    < oldPosition - countCommas (take oldPosition oldValue))%nat ->
   calculateCursorPosition value oldValue (Some oldPosition) newValue
   = length newValue).
Proof.
  split; [reflexivity|]. intro Hfew.
  unfold calculateCursorPosition.
  rewrite cursorLoop_exhausted by (cbn; exact Hfew). cbn [Nat.add].
  apply Nat.ltb_lt in Hfew. rewrite Hfew. reflexivity.
Qed.

Lemma cursor_falls_back_to_end_witness :
  let oldValue := String.list_ascii_of_string "12,345" in
  let newValue := String.list_ascii_of_string "123" in
  (countDigits newValue < 6 - countCommas (take 6 oldValue))%nat /\
  calculateCursorPosition oldValue oldValue (Some 6%nat) newValue
  = length newValue.
Proof.
  intros oldValue newValue.
  assert (H : (countDigits newValue < 6 - countCommas (take 6 oldValue))%nat)
    by (vm_compute; lia).
  split; [exact H|].
  exact (proj2 (cursor_falls_back_to_end oldValue oldValue 6 newValue) H).
Defined.

End CursorFacts.

(** ** Car finance page *)

Module CarFinanceFacts.
Import CarFinance.

Local Abbreviation rateOf fd := (interestRate fd / 100 / 12).
Local Abbreviation principalOf fd := (carPrice fd - deposit fd).

(** The fields of a result, given its monthly payment. *)
Lemma calculateCarLoan_inv (formData : FormData) (res : CarLoanResult) :
  calculateCarLoan formData = Some res ->
  totalInterest res =
    monthlyPayment res * inject_Z (loanTerm formData)
    - (principalOf formData - balloonPayment formData) /\
  totalCost res =
    deposit formData + monthlyPayment res * inject_Z (loanTerm formData)
    + (if String.eqb (financeType formData) "pcp"
       then balloonPayment formData else 0) /\
  loanAmount res = principalOf formData /\
  resBalloonPayment res = balloonPayment formData /\
  apr res = interestRate formData * (11 # 10).
Proof.
  unfold calculateCarLoan.
  match goal with
  | |- (?m ≫= _) = _ -> _ => destruct m as [pay|]; [|discriminate]
  end.
  cbn [mbind option_bind]. intros [= <-].
  cbn [totalInterest totalCost loanAmount resBalloonPayment apr monthlyPayment].
  repeat split; reflexivity.
Qed.

(** For a rate [>= 0] and a term of [n > 0] months both finance types yield
    a result, and the payment [p] satisfies
    [p * G_n(1+r) = L * (1+r)^n - B], where [B] is the balloon payment for
    PCP and 0 for HP. *)
Lemma car_payment_geomSum (formData : FormData) :
  0 <= interestRate formData -> (0 < loanTerm formData)%Z ->
  financeType formData = "hp" \/ financeType formData = "pcp" ->
  exists res,
    calculateCarLoan formData = Some res /\
    monthlyPayment res
      * geomSum (1 + rateOf formData) (Z.to_nat (loanTerm formData))
    == principalOf formData * (1 + rateOf formData) ^ loanTerm formData
       - (if String.eqb (financeType formData) "pcp"
          then balloonPayment formData else 0).
Proof.
  intros Hrate Hterm Htype.
  unfold calculateCarLoan.
  set (L := principalOf formData). set (r := rateOf formData).
  set (n := loanTerm formData) in *. set (B := balloonPayment formData).
  assert (Hr : 0 <= r).
  { unfold r. assert (E : interestRate formData / 100 / 12
                          == interestRate formData * (1 # 1200)) by field.
    lra. }
  assert (Hnat : Z.of_nat (Z.to_nat n) = n) by lia.
  pose proof (inject_Z_pos n Hterm) as Hnpos.
  assert (Hgeo : 0 < r ->
            1 < (1 + r) ^ n /\
            r * geomSum (1 + r) (Z.to_nat n) == (1 + r) ^ n - 1).
  { intro Hpos. split; [apply Qpower_1_lt; [lra | lia]|].
    pose proof (MortgageMore.geomSum_closed (1 + r) (Z.to_nat n) ltac:(lra))
      as Hg. rewrite Hnat in Hg. rewrite <- Hg. ring. }
  assert (Hflat : r == 0 ->
            (1 + r) ^ n == 1 /\
            geomSum (1 + r) (Z.to_nat n) == inject_Z n).
  { intro Hz. assert (Hx : 1 + r == 1) by lra. split.
    - rewrite Hx. apply Qpower_1.
    - rewrite (MortgageMore.geomSum_one _ _ Hx), Hnat. reflexivity. }
  unfold Math_pow.
  destruct Htype as [Ht | Ht]; rewrite Ht; cbn [String.eqb Ascii.eqb Bool.eqb].
  - destruct (Qlt_bool 0 r) eqn:E.
    + apply Qlt_bool_true in E. destruct (Hgeo E) as [Hpow Hsum].
      set (x := (1 + r) ^ n) in *.
      set (g := geomSum (1 + r) (Z.to_nat n)) in *.
      rewrite jsdiv_nonzero by lra. cbn [mbind option_bind].
      eexists. split; [reflexivity|]. cbn [monthlyPayment].
      assert (H1 : r * (L * (r * x) / (x - 1) * g - (L * x - 0)) == 0).
      { setoid_replace (r * (L * (r * x) / (x - 1) * g - (L * x - 0)))
          with (L * (r * x) / (x - 1) * (r * g) - r * L * x)
          using relation Qeq by ring.
        rewrite Hsum. field. lra. }
      apply Qmult_integral in H1. destruct H1 as [H1 | H1]; lra.
    + apply Qlt_bool_false in E. destruct (Hflat ltac:(lra)) as [Hx Hg].
      rewrite jsdiv_nonzero by lra. cbn [mbind option_bind].
      eexists. split; [reflexivity|]. cbn [monthlyPayment].
      rewrite Hx, Hg. field. lra.
  - destruct (Qlt_bool 0 r) eqn:E.
    + apply Qlt_bool_true in E. destruct (Hgeo E) as [Hpow Hsum].
      set (x := (1 + r) ^ n) in *.
      set (g := geomSum (1 + r) (Z.to_nat n)) in *.
      rewrite (jsdiv_nonzero B x) by lra. cbn [mbind option_bind].
      rewrite jsdiv_nonzero by lra. cbn [mbind option_bind].
      eexists. split; [reflexivity|]. cbn [monthlyPayment].
      assert (H1 : r * ((L - B / x) * (r * x) / (x - 1) * g - (L * x - B))
                   == 0).
      { setoid_replace
          (r * ((L - B / x) * (r * x) / (x - 1) * g - (L * x - B)))
          with ((L - B / x) * (r * x) / (x - 1) * (r * g) - r * (L * x - B))
          using relation Qeq by ring.
        rewrite Hsum. field. lra. }
      apply Qmult_integral in H1. destruct H1 as [H1 | H1]; lra.
    + apply Qlt_bool_false in E. destruct (Hflat ltac:(lra)) as [Hx Hg].
      rewrite jsdiv_nonzero by lra. cbn [mbind option_bind].
      eexists. split; [reflexivity|]. cbn [monthlyPayment].
      rewrite Hx, Hg. field. lra.
Qed.

(** X19.  In every result of [calculateCarLoan] the total cost is the car
    price plus the total interest for PCP, and the car price plus the total
    interest less the balloon payment held in the form for HP. *)
Theorem total_cost_is_price_plus_interest (formData : FormData)
    (res : CarLoanResult) :
  calculateCarLoan formData = Some res ->
  (financeType formData = "pcp" ->
     totalCost res == carPrice formData + totalInterest res) /\
  (financeType formData = "hp" ->
     totalCost res ==
     carPrice formData + totalInterest res - balloonPayment formData).
Proof.
  intro Hres.
  destruct (calculateCarLoan_inv formData res Hres) as (Hi & Hc & _).
  rewrite Hi, Hc. split; intros ->; cbn [String.eqb Ascii.eqb Bool.eqb]; ring.
Qed.

Lemma total_cost_is_price_plus_interest_witness :
  exists res,
    calculateCarLoan initialFormData = Some res /\
    totalCost res ==
    carPrice initialFormData + totalInterest res
      - balloonPayment initialFormData.
Proof.
  destruct (car_payment_geomSum initialFormData) as (res & Hres & _);
    [discriminate | reflexivity | left; reflexivity |].
  exists res. split; [exact Hres|].
  exact (proj2 (total_cost_is_price_plus_interest initialFormData res Hres)
           eq_refl).
Defined.

(** X23.  The minus button never takes car price, term or interest rate
    below 0; and plus followed by minus restores a term that is not
    negative, a car price that is a whole number of pounds and an interest
    rate that is a whole number of half points (values at which adding and
    subtracting the step is exact in doubles as well). *)
Theorem adjust_buttons (formData : FormData) :
  0 <= carPrice (handleAdjustValue CarPriceField false formData) /\
  (0 <= loanTerm (handleAdjustValue LoanTermField false formData))%Z /\
  0 <= interestRate (handleAdjustValue InterestRateField false formData) /\
  ((0 <= loanTerm formData)%Z ->
   loanTerm (handleAdjustValue LoanTermField false
               (handleAdjustValue LoanTermField true formData))
   = loanTerm formData) /\
  (forall pounds : Z,
     (0 <= pounds <= 2 ^ 53 - 1000)%Z ->
     carPrice formData == inject_Z pounds ->
     carPrice (handleAdjustValue CarPriceField false
                 (handleAdjustValue CarPriceField true formData))
     == carPrice formData) /\
  (forall halves : Z,
     (0 <= halves <= 2 ^ 52)%Z ->
     interestRate formData == inject_Z halves / 2 ->
     interestRate (handleAdjustValue InterestRateField false
                     (handleAdjustValue InterestRateField true formData))
     == interestRate formData).
Proof.
  cbn [handleAdjustValue carPrice loanTerm interestRate].
  split; [apply Q.le_max_l|]. split; [lia|]. split; [apply Q.le_max_l|].
  split; [|split].
  - intro H. lia.
  - intros pounds [H _] E.
    assert (H0 : 0 <= carPrice formData).
    { rewrite E. change 0 with (inject_Z 0). rewrite <- Zle_Qle. exact H. }
    rewrite Q.max_r by lra. ring.
  - intros halves [H _] E.
    assert (H0 : 0 <= inject_Z halves).
    { change 0 with (inject_Z 0). rewrite <- Zle_Qle. exact H. }
    assert (H1 : 0 <= interestRate formData).
    { rewrite E. apply Qle_shift_div_l; [reflexivity | lra]. }
    rewrite Q.max_r by lra. ring.
Qed.

Lemma adjust_buttons_witness :
  (0 <= 20000 <= 2 ^ 53 - 1000)%Z /\
  carPrice initialFormData == inject_Z 20000 /\
  carPrice (handleAdjustValue CarPriceField false
              (handleAdjustValue CarPriceField true initialFormData))
  == carPrice initialFormData.
Proof.
  assert (H : (0 <= 20000 <= 2 ^ 53 - 1000)%Z) by (split; discriminate).
  assert (E : carPrice initialFormData == inject_Z 20000) by reflexivity.
  split; [exact H|]. split; [exact E|].
  exact (proj1 (proj2 (proj2 (proj2 (proj2 (adjust_buttons initialFormData)))))
           20000%Z H E).
Defined.

(** X24.  A PCP agreement with a balloon payment of 0 is an HP agreement:
    for a term of more than 0 months, two forms that differ in the finance
    type only and hold a balloon payment of 0 get equal monthly payments,
    total interest and total cost. *)
Theorem pcp_without_balloon_is_hp (hp pcp : FormData) :
  financeType hp = "hp" -> financeType pcp = "pcp" ->
  carPrice pcp = carPrice hp -> deposit pcp = deposit hp ->
  loanTerm pcp = loanTerm hp -> interestRate pcp = interestRate hp ->
  balloonPayment hp = 0 -> balloonPayment pcp = 0 ->
  (0 < loanTerm hp)%Z ->
  exists resHp resPcp,
    calculateCarLoan hp = Some resHp /\
    calculateCarLoan pcp = Some resPcp /\
    monthlyPayment resPcp == monthlyPayment resHp /\
    totalInterest resPcp == totalInterest resHp /\
    totalCost resPcp == totalCost resHp.
Proof.
  intros Hh Hp Hprice Hdep Hterm Hrate Hbh Hbp Hn.
  unfold calculateCarLoan, Math_pow.
  rewrite Hh, Hp, Hprice, Hdep, Hterm, Hrate, Hbh, Hbp.
  cbn [String.eqb Ascii.eqb Bool.eqb].
  set (L := principalOf hp). set (r := rateOf hp). set (n := loanTerm hp) in *.
  pose proof (inject_Z_pos n Hn) as Hnpos.
  destruct (Qlt_bool 0 r) eqn:E.
  - apply Qlt_bool_true in E.
    pose proof (Qpower_1_lt (1 + r) n ltac:(lra) Hn) as Hpow.
    set (x := (1 + r) ^ n) in *.
    rewrite (jsdiv_nonzero 0 x) by lra. cbn [mbind option_bind].
    rewrite !jsdiv_nonzero by lra. cbn [mbind option_bind].
    do 2 eexists. split; [reflexivity|]. split; [reflexivity|].
    cbn [monthlyPayment totalInterest totalCost].
    repeat split; field; lra.
  - rewrite !jsdiv_nonzero by lra. cbn [mbind option_bind].
    do 2 eexists. split; [reflexivity|]. split; [reflexivity|].
    cbn [monthlyPayment totalInterest totalCost].
    repeat split; field; lra.
Qed.

Lemma pcp_without_balloon_is_hp_witness :
  let pcp :=
    {| carPrice := 20000; deposit := 2000; loanTerm := 48;
       interestRate := 69 # 10; balloonPayment := 0;
       financeType := "pcp" |} in
  (0 < loanTerm initialFormData)%Z /\
  exists resHp resPcp,
    calculateCarLoan initialFormData = Some resHp /\
    calculateCarLoan pcp = Some resPcp /\
    monthlyPayment resPcp == monthlyPayment resHp /\
    totalInterest resPcp == totalInterest resHp /\
    totalCost resPcp == totalCost resHp.
Proof.
  intro pcp. split; [reflexivity|].
  exact (pcp_without_balloon_is_hp initialFormData pcp
           eq_refl eq_refl eq_refl eq_refl eq_refl eq_refl eq_refl eq_refl
           eq_refl).
Defined.

End CarFinanceFacts.

(** ** Mortgage amortization chart *)

Module ChartFacts.
Import AmortizationChart.

Section Chart.

Variables (loanAmount interestRate : Q) (loanTerm : Z) (monthlyOverpayment : Q).

Local Abbreviation months mp fuel b p i :=
  (monthLoop interestRate monthlyOverpayment mp fuel b p i).
Local Abbreviation firstYear mp :=
  (yearPaymentFrom interestRate monthlyOverpayment mp loanAmount).
Local Abbreviation RowOK mp :=
  (AmortizationChart.RowOK loanAmount interestRate monthlyOverpayment mp).

(** A year of instalments moves principal from the balance to the amount
    paid and never takes the balance below 0. *)
Lemma monthLoop_spec (mp : Q) (fuel : nat) (b p i b' p' i' : Q) (paid : bool) :
  months mp fuel b p i = (b', p', i', paid) ->
  p' + b' == p + b /\ (0 <= b -> 0 <= b').
Proof.
  revert b p i. induction fuel as [|fuel IH]; intros b p i Hrun.
  - cbn [monthLoop] in Hrun. injection Hrun as <- <- <- <-.
    split; [reflexivity | auto].
  - cbn [monthLoop] in Hrun.
    destruct (Qle_bool b 0).
    { injection Hrun as <- <- <- <-. split; [reflexivity | auto]. }
    set (pp := if Qlt_bool 0 monthlyOverpayment
               then mp - b * monthlyRate interestRate + monthlyOverpayment
               else mp - b * monthlyRate interestRate) in *.
    destruct (Qlt_bool b pp) eqn:E.
    { injection Hrun as <- <- <- <-. split; [ring | intros _; lra]. }
    apply Qlt_bool_false in E.
    destruct (IH _ _ _ Hrun) as [Hsum Hnonneg].
    split; [rewrite Hsum; ring | intros _; apply Hnonneg; lra].
Qed.

(** The first year loop starts every year from the full loan amount, so all
    its entries are the first year's figures. *)
Lemma precalcLoop_replicate (mp : Q) (fuel : nat) (yr : Z)
    (acc : list YearPayment) :
  (yr + Z.of_nat fuel = loanTerm + 1)%Z ->
  precalcLoop interestRate loanTerm monthlyOverpayment mp loanAmount fuel yr acc
  = acc ++ replicate fuel (firstYear mp).
Proof.
  revert yr acc. induction fuel as [|fuel IH]; intros yr acc Hyr.
  - cbn [precalcLoop replicate]. now rewrite app_nil_r.
  - cbn [precalcLoop replicate]. test_holds (yr <=? loanTerm)%Z.
    rewrite IH by lia. rewrite <- app_assoc. reflexivity.
Qed.

Lemma RowOK_paidRow (mp : Q) (yr : Z) (t : Q) :
  RowOK mp (paidRow loanAmount yr t).
Proof.
  unfold AmortizationChart.RowOK, paidRow.
  cbn [principalPaid remainingBalance totalPrincipalRemaining
       nextYearPrincipalPayment nextYearInterestPayment].
  split; [ring|]. split; [reflexivity|]. split; [intros _; lra|].
  right. split; reflexivity.
Qed.

Lemma seqZ_snoc (n : Z) : (0 <= n)%Z -> seqZ 1 n ++ [(n + 1)%Z] = seqZ 1 (n + 1).
Proof.
  intro Hn. rewrite (seqZ_app 1 n 1) by lia.
  replace (1 + n)%Z with (n + 1)%Z by lia. reflexivity.
Qed.

Lemma mainLoop_spec (mp : Q) (fuel : nat) (yr : Z) (st : ChartState) :
  (1 <= yr)%Z -> Z.of_nat fuel = (loanTerm - yr)%Z ->
  year <$> sYearlyData st = seqZ 1 yr ->
  Forall (RowOK mp) (sYearlyData st) ->
  sTotalPrincipalPaid st + sRemainingBalance st == loanAmount ->
  (0 <= loanAmount -> 0 <= sRemainingBalance st) ->
  exists rows,
    mainLoop loanAmount interestRate loanTerm monthlyOverpayment mp
      (replicate (Z.to_nat loanTerm) (firstYear mp)) fuel yr st = Some rows /\
    year <$> rows = seqZ 1 loanTerm /\
    Forall (RowOK mp) rows.
Proof.
  revert yr st. induction fuel as [|fuel IH];
    intros yr st Hyr Hfuel Hyears Hrows Hsum Hnonneg.
  - cbn [mainLoop]. exists (sYearlyData st).
    replace loanTerm with yr by lia. auto.
  - cbn [mainLoop]. test_holds (yr <? loanTerm)%Z.
    destruct (sIsLoanPaid st).
    + apply IH; cbn [sYearlyData sTotalPrincipalPaid sRemainingBalance];
        try assumption; try lia.
      * rewrite fmap_app, Hyears. apply seqZ_snoc. lia.
      * apply Forall_app. split; [exact Hrows|].
        constructor; [apply RowOK_paidRow | constructor].
    + destruct (months mp 12 (sRemainingBalance st) 0 0)
        as [[[rb yP] yI] paid] eqn:Hrun.
      destruct (monthLoop_spec _ _ _ _ _ _ _ _ _ Hrun) as [Hmove Hrb].
      assert (Hinterest : exists ri,
        (if Qlt_bool 0 rb then
           if (0 <? totalPayments loanTerm - yr * 12)%Z
              && Qlt_bool 0 (monthlyRate interestRate)
           then
             newMonthlyPayment ←
               jsdiv (rb * (monthlyRate interestRate *
                        Math_pow (1 + monthlyRate interestRate)
                          (totalPayments loanTerm - yr * 12)))
                     (Math_pow (1 + monthlyRate interestRate)
                        (totalPayments loanTerm - yr * 12) - 1);
             Some (newMonthlyPayment
                     * inject_Z (totalPayments loanTerm - yr * 12) - rb)
           else Some 0
         else Some 0) = Some ri).
      { destruct (Qlt_bool 0 rb); [|eauto].
        destruct (0 <? totalPayments loanTerm - yr * 12)%Z eqn:E1; [|eauto].
        destruct (Qlt_bool 0 (monthlyRate interestRate)) eqn:E2; [|eauto].
        cbn [andb]. apply Z.ltb_lt in E1. apply Qlt_bool_true in E2.
        pose proof (Qpower_1_lt (1 + monthlyRate interestRate) _
                      ltac:(lra) E1) as Hpow.
        unfold Math_pow. rewrite jsdiv_nonzero by lra.
        cbn [mbind option_bind]. eauto. }
      destruct Hinterest as [ri ->]. cbn [mbind option_bind].
      rewrite lookup_replicate_2 by lia. cbn [mbind option_bind].
      set (row := {| year := (yr + 1)%Z;
                     principalPaid := sTotalPrincipalPaid st + yP;
                     interestPaid := sTotalInterestPaid st + yI;
                     remainingBalance := rb;
                     yearlyPrincipalPaid := yP;
                     yearlyInterestPaid := yI;
                     totalInterestRemaining := ri;
                     totalPrincipalRemaining := rb;
                     nextYearPrincipalPayment := principal (firstYear mp);
                     nextYearInterestPayment := interest (firstYear mp) |}).
      assert (Hsum' : sTotalPrincipalPaid st + yP + rb == loanAmount)
        by (rewrite <- Hsum; lra).
      assert (Hrow : RowOK mp row).
      { unfold AmortizationChart.RowOK, row.
        cbn [principalPaid remainingBalance totalPrincipalRemaining
             nextYearPrincipalPayment nextYearInterestPayment].
        split; [exact Hsum'|]. split; [reflexivity|].
        split; [intro HL; apply Hrb, Hnonneg, HL|].
        left. split; reflexivity. }
      assert (Hyears' : year <$> (sYearlyData st ++ [row]) = seqZ 1 (yr + 1)).
      { rewrite fmap_app, Hyears. apply seqZ_snoc. lia. }
      assert (Hrows' : Forall (RowOK mp) (sYearlyData st ++ [row])).
      { apply Forall_app. split; [exact Hrows|].
        constructor; [exact Hrow | constructor]. }
      destruct (paid && (yr <? loanTerm - 1)%Z) eqn:Hfill.
      * eexists. split; [reflexivity|]. split.
        -- rewrite fmap_app, Hyears', <- list_fmap_compose.
           rewrite (list_fmap_ext _ (Z.add 1) (seqZ (yr + 1) _))
             by (intros; unfold compose, paidRow; cbn [year]; lia).
           rewrite fmap_add_seqZ.
           rewrite <- (seqZ_app 1 (yr + 1) (loanTerm - (yr + 1))) by lia.
           f_equal. lia.
        -- apply Forall_app. split; [exact Hrows'|].
           apply Forall_fmap, Forall_forall. intros y _.
           apply RowOK_paidRow.
      * apply IH;
          cbn [sYearlyData sTotalPrincipalPaid sRemainingBalance];
          try assumption; try lia.
        intro HL. apply Hrb, Hnonneg, HL.
Qed.

(** The rows present when the main loop starts stay at the front. *)
Lemma mainLoop_prefix (mp : Q) (yps : list YearPayment) (fuel : nat) (yr : Z)
    (st : ChartState) (rows : list YearlyPaymentData) :
  mainLoop loanAmount interestRate loanTerm monthlyOverpayment mp yps
    fuel yr st = Some rows ->
  exists rest, rows = sYearlyData st ++ rest.
Proof.
  revert yr st. induction fuel as [|fuel IH]; intros yr st Hrun.
  - cbn [mainLoop] in Hrun. injection Hrun as <-.
    exists []. now rewrite app_nil_r.
  - cbn [mainLoop] in Hrun.
    destruct (yr <? loanTerm)%Z;
      [|injection Hrun as <-; exists []; now rewrite app_nil_r].
    destruct (sIsLoanPaid st).
    + destruct (IH _ _ Hrun) as [rest ->]. cbn [sYearlyData].
      rewrite <- app_assoc. eauto.
    + destruct (months mp 12 (sRemainingBalance st) 0 0)
        as [[[rb yP] yI] paid].
      match type of Hrun with
      | (?m ≫= _) = _ => destruct m as [ri|]; [|discriminate]
      end.
      cbn [mbind option_bind] in Hrun.
      destruct (yps !! Z.to_nat yr) as [next|]; [|discriminate].
      cbn [mbind option_bind] in Hrun.
      destruct (paid && (yr <? loanTerm - 1)%Z).
      * injection Hrun as <-. rewrite <- app_assoc. eauto.
      * destruct (IH _ _ Hrun) as [rest ->]. cbn [sYearlyData].
        rewrite <- app_assoc. eauto.
Qed.

(** For a term of at least one year the chart data exists, has one row per
    year, every row satisfies [RowOK], and the first row shows the whole
    loan and the closed-form total interest. *)
Lemma chart_rows :
  (1 <= loanTerm)%Z ->
  exists mp rows first,
    Mortgage.calculateMonthlyPayment loanAmount interestRate loanTerm
      = Some mp /\
    calculateAmortizationData loanAmount interestRate loanTerm
      monthlyOverpayment = Some rows /\
    year <$> rows = seqZ 1 loanTerm /\
    Forall (RowOK mp) rows /\
    rows !! 0%nat = Some first /\
    remainingBalance first = loanAmount /\
    totalPrincipalRemaining first = loanAmount /\
    totalInterestRemaining first
      = mp * inject_Z (loanTerm * 12) - loanAmount /\
    nextYearPrincipalPayment first = principal (firstYear mp) /\
    nextYearInterestPayment first = interest (firstYear mp).
Proof.
  intro Hterm.
  destruct (MortgageMore.monthlyPayment_defined loanAmount interestRate
              loanTerm ltac:(unfold Mortgage.numberOfPaymentsOf; lia))
    as [mp Hmp].
  unfold calculateAmortizationData.
  assert (Hinline :
    (if Qlt_bool 0 (monthlyRate interestRate) then
       jsdiv (loanAmount *
                (monthlyRate interestRate *
                   Math_pow (1 + monthlyRate interestRate)
                     (totalPayments loanTerm)))
             (Math_pow (1 + monthlyRate interestRate)
                (totalPayments loanTerm) - 1)
     else jsdiv loanAmount (inject_Z (totalPayments loanTerm)))
    = Mortgage.calculateMonthlyPayment loanAmount interestRate loanTerm).
  { unfold Mortgage.calculateMonthlyPayment, Qlt_bool, monthlyRate,
      totalPayments, Mortgage.monthlyRateOf, Mortgage.numberOfPaymentsOf.
    destruct (Qle_bool (interestRate / 100 / 12) 0); reflexivity. }
  rewrite Hinline, Hmp. cbn [mbind option_bind].
  rewrite precalcLoop_replicate by lia. rewrite app_nil_l.
  rewrite lookup_replicate_2 by lia. cbn [mbind option_bind].
  set (firstRow :=
         {| year := 1; principalPaid := 0; interestPaid := 0;
            remainingBalance := loanAmount;
            yearlyPrincipalPaid := 0; yearlyInterestPaid := 0;
            totalInterestRemaining :=
              mp * inject_Z (totalPayments loanTerm) - loanAmount;
            totalPrincipalRemaining := loanAmount;
            nextYearPrincipalPayment := principal (firstYear mp);
            nextYearInterestPayment := interest (firstYear mp) |}).
  set (st := {| sRemainingBalance := loanAmount; sTotalInterestPaid := 0;
                sTotalPrincipalPaid := 0; sIsLoanPaid := false;
                sYearlyData := [firstRow] |}).
  assert (Hfirst : RowOK mp firstRow).
  { unfold AmortizationChart.RowOK, firstRow.
    cbn [principalPaid remainingBalance totalPrincipalRemaining
         nextYearPrincipalPayment nextYearInterestPayment].
    split; [ring|]. split; [reflexivity|]. split; [auto|].
    left. split; reflexivity. }
  destruct (mainLoop_spec mp (Z.to_nat (loanTerm - 1)) 1 st)
    as (rows & Hrows & Hyears & Hall).
  - lia.
  - lia.
  - reflexivity.
  - constructor; [exact Hfirst | constructor].
  - cbn [st sTotalPrincipalPaid sRemainingBalance]. ring.
  - auto.
  - destruct (mainLoop_prefix _ _ _ _ _ _ Hrows) as [rest Hrest].
    exists mp, rows, firstRow. rewrite Hrows.
    split; [reflexivity|]. split; [reflexivity|].
    split; [exact Hyears|]. split; [exact Hall|].
    split; [rewrite Hrest; reflexivity|].
    repeat split; reflexivity.
Qed.

Lemma chart_none :
  (loanTerm <= 0)%Z ->
  calculateAmortizationData loanAmount interestRate loanTerm
    monthlyOverpayment = None.
Proof.
  intro Hterm. unfold calculateAmortizationData.
  match goal with
  | |- (?m ≫= _) = _ => destruct m as [mp|]; [|reflexivity]
  end.
  cbn [mbind option_bind].
  replace (Z.to_nat loanTerm) with 0%nat by lia. reflexivity.
Qed.

End Chart.

(** X25.  The chart has one row per year of the term: for a term of at
    least one year [calculateAmortizationData] returns rows whose years are
    1, 2, ..., [loanTerm]; for a term of 0 or less it throws (the first
    element of an empty [yearlyPayments] is read). *)
Theorem chart_one_row_per_year
    (loanAmount interestRate : Q) (loanTerm : Z) (monthlyOverpayment : Q) :
  ((1 <= loanTerm)%Z ->
   exists rows,
     calculateAmortizationData loanAmount interestRate loanTerm
       monthlyOverpayment = Some rows /\
     year <$> rows = seqZ 1 loanTerm /\
     Z.of_nat (length rows) = loanTerm) /\
  ((loanTerm <= 0)%Z ->
   calculateAmortizationData loanAmount interestRate loanTerm
     monthlyOverpayment = None).
Proof.
  split; [|apply chart_none].
  intro Hterm.
  destruct (chart_rows loanAmount interestRate loanTerm monthlyOverpayment
              Hterm) as (mp & rows & first & _ & Hrows & Hyears & _).
  exists rows. split; [exact Hrows|]. split; [exact Hyears|].
  rewrite <- (length_fmap year), Hyears, length_seqZ. lia.
Qed.

Lemma chart_one_row_per_year_witness :
  (1 <= 25)%Z /\
  (exists rows,
     calculateAmortizationData 225000 (45 # 10) 25 0 = Some rows /\
     Z.of_nat (length rows) = 25%Z) /\
  (0 <= 0)%Z /\
  calculateAmortizationData 225000 (45 # 10) 0 0 = None.
Proof.
  assert (H1 : (1 <= 25)%Z) by discriminate.
  assert (H2 : (0 <= 0)%Z) by discriminate.
  split; [exact H1|]. split.
  - destruct (proj1 (chart_one_row_per_year 225000 (45 # 10) 25 0) H1)
      as (rows & Hrows & _ & Hlen).
    exists rows. split; assumption.
  - split; [exact H2|].
    exact (proj2 (chart_one_row_per_year 225000 (45 # 10) 0 0) H2).
Defined.



(** X27.  The next-year figures do not follow the balance: the first year
    loop starts every year from the full loan amount, so in every row the
    next-year principal and interest payments are those shown in the first
    row, or both 0 in the rows added after payoff. *)
Theorem chart_next_year_figures_frozen
    (loanAmount interestRate : Q) (loanTerm : Z) (monthlyOverpayment : Q) :
  (1 <= loanTerm)%Z ->
  exists rows first,
    calculateAmortizationData loanAmount interestRate loanTerm
      monthlyOverpayment = Some rows /\
    rows !! 0%nat = Some first /\
    forall row, row ∈ rows ->
      (nextYearPrincipalPayment row = nextYearPrincipalPayment first /\
       nextYearInterestPayment row = nextYearInterestPayment first) \/
      (nextYearPrincipalPayment row = 0 /\ nextYearInterestPayment row = 0).
Proof.
  intro Hterm.
  destruct (chart_rows loanAmount interestRate loanTerm monthlyOverpayment
              Hterm)
    as (mp & rows & first & _ & Hrows & _ & Hall & Hfirst & _ & _ & _
        & Hp & Hi).
  exists rows, first. split; [exact Hrows|]. split; [exact Hfirst|].
  intros row Hin. rewrite Forall_forall in Hall.
  destruct (Hall row Hin) as (_ & _ & _ & Hnext).
  rewrite Hp, Hi. exact Hnext.
Qed.

Lemma chart_next_year_figures_frozen_witness :
  (1 <= 25)%Z /\
  exists rows first,
    calculateAmortizationData 225000 (45 # 10) 25 500 = Some rows /\
    rows !! 0%nat = Some first /\
    forall row, row ∈ rows ->
      (nextYearPrincipalPayment row = nextYearPrincipalPayment first /\
       nextYearInterestPayment row = nextYearInterestPayment first) \/
      (nextYearPrincipalPayment row = 0 /\ nextYearInterestPayment row = 0).
Proof.
  assert (H1 : (1 <= 25)%Z) by discriminate.
  split; [exact H1|].
  exact (chart_next_year_figures_frozen 225000 (45 # 10) 25 500 H1).
Defined.

(** X28.  The chart and the page agree on the loan: for a term of at least
    one year the chart built from a result of [calculateMortgage] starts
    with the full loan amount as remaining balance and the page's total
    interest as interest still to pay, so the total amount to be paid that
    the chart derives equals the page's total payment. *)
Theorem chart_agrees_with_page (formData : Mortgage.MortgageFormData) :
  (1 <= Mortgage.loanTerm formData)%Z ->
  exists res rows first total,
    Mortgage.calculateMortgage formData = Some res /\
    calculateAmortizationData (Mortgage.loanAmount res)
      (Mortgage.interestRate formData) (Mortgage.loanTerm formData)
      (Mortgage.monthlyOverpayment formData) = Some rows /\
    rows !! 0%nat = Some first /\
    remainingBalance first = Mortgage.loanAmount res /\
    totalInterestRemaining first = Mortgage.totalInterest res /\
    totalAmountToBePaid rows = Some total /\
    total == Mortgage.totalPayment res.
Proof.
  intro Hterm.
  destruct (MortgageMore.calculateMortgage_runs formData ltac:(lia))
    as [res Hres].
  destruct (MortgageMore.calculateMortgage_inv formData res Hres)
    as (Hpay & _ & _ & _ & HL & Htp & Hti & _).
  cbv zeta in Hpay, HL, Htp, Hti.
  destruct (chart_rows (Mortgage.loanAmount res)
              (Mortgage.interestRate formData) (Mortgage.loanTerm formData)
              (Mortgage.monthlyOverpayment formData) Hterm)
    as (mp & rows & first & Hmp & Hrows & _ & _ & Hfirst & Hrb & Hpr & Hir & _).
  rewrite HL in Hmp. rewrite Hpay in Hmp. injection Hmp as <-.
  exists res, rows, first.
  exists (totalPrincipalRemaining first + totalInterestRemaining first).
  split; [exact Hres|]. split; [exact Hrows|]. split; [exact Hfirst|].
  split; [exact Hrb|].
  split; [rewrite Hir, Hti, HL; reflexivity|].
  split; [unfold totalAmountToBePaid; rewrite Hfirst; reflexivity|].
  rewrite Hpr, Hir, Htp. ring.
Qed.

Lemma chart_agrees_with_page_witness :
  (1 <= Mortgage.loanTerm Mortgage.initialFormData)%Z /\
  exists res rows total,
    Mortgage.calculateMortgage Mortgage.initialFormData = Some res /\
    calculateAmortizationData (Mortgage.loanAmount res)
      (Mortgage.interestRate Mortgage.initialFormData)
      (Mortgage.loanTerm Mortgage.initialFormData)
      (Mortgage.monthlyOverpayment Mortgage.initialFormData) = Some rows /\
    totalAmountToBePaid rows = Some total /\
    total == Mortgage.totalPayment res.
Proof.
  assert (H1 : (1 <= Mortgage.loanTerm Mortgage.initialFormData)%Z)
    by discriminate.
  split; [exact H1|].
  destruct (chart_agrees_with_page Mortgage.initialFormData H1)
    as (res & rows & first & total & Hres & Hrows & _ & _ & _ & Htot & Heq).
  exists res, rows, total.
  split; [exact Hres|]. split; [exact Hrows|]. split; [exact Htot | exact Heq].
Defined.

End ChartFacts.

(** ** Two further facts on the simulator and the purchasing power walk *)

Module SimulatorAndWalkMore.
Import Mortgage AmortizationSpec PurchasingPower.

Lemma sumQ_nonneg (l : list Q) : Forall (Qle 0) l -> 0 <= sumQ l.
Proof.
  induction 1 as [|x l Hx _ IH]; cbn [sumQ fold_right]; [lra|].
  change (fold_right Qplus 0 l) with (sumQ l). lra.
Qed.

Lemma specOvershootOf_nonneg (rate payment overpayment : Q) (s : LoopState) :
  0 <= specOvershootOf rate payment overpayment s.
Proof.
  unfold specOvershootOf.
  destruct (Qlt_bool (balance s)
              (payment - specInterestOf rate s + overpayment)) eqn:E; [|lra].
  apply Qlt_bool_true in E. lra.
Qed.

Lemma specSchedule_Forall {A : Type} (P : A -> Prop) (entry : LoopState -> A)
    (fuel : nat) (rate payment overpayment : Q) (term : Z) (s : LoopState) :
  (forall s', P (entry s')) ->
  Forall P (specSchedule entry fuel rate payment overpayment term s).
Proof.
  intro Hall. revert s. induction fuel as [|fuel IH]; intro s.
  - constructor.
  - cbn [specSchedule].
    destruct (Qlt_bool 0 (balance s) && (month s <? term)%Z);
      constructor; auto.
Qed.

(** X29.  The total interest the simulator reports is the interest charged
    period by period (balance at the start of the period times the rate)
    plus the amount by which the last instalment exceeds the balance it
    meets; so it is never below the interest charged. *)
Theorem reported_interest_is_charged_plus_overshoot
    (P rate payment overpayment : Q) (term : Z) :
  resTotalInterest (calculateWithOverpayment P rate payment overpayment term)
  == specInterestCharged P rate payment overpayment term
     + specOvershoot P rate payment overpayment term /\
  0 <= specOvershoot P rate payment overpayment term /\
  specInterestCharged P rate payment overpayment term
  <= resTotalInterest
       (calculateWithOverpayment P rate payment overpayment term).
Proof.
  pose proof (MortgageFacts.reported_interest_decomposition
                P rate payment overpayment term) as Hdec.
  assert (Hover : 0 <= specOvershoot P rate payment overpayment term).
  { unfold specOvershoot. apply sumQ_nonneg, specSchedule_Forall.
    intro s'. apply specOvershootOf_nonneg. }
  split; [exact Hdec|]. split; [exact Hover | lra].
Qed.

Lemma amountAt_pos (table : gmap Z Q) (amount : Q) (start : Z) (k : nat) :
  (forall year rate, table !! year = Some rate -> -100 < rate) ->
  0 < amount -> 0 < amountAt table amount start k.
Proof.
  intros Htable Hamount. induction k as [|k IH]; cbn [amountAt]; [exact Hamount|].
  assert (Hrate : -100 < rateOrDefault table (start + Z.of_nat k)).
  { unfold rateOrDefault.
    destruct (table !! (start + Z.of_nat k)%Z) as [rate|] eqn:E; [|reflexivity].
    destruct (Qeq_bool rate 0); [reflexivity | exact (Htable _ _ E)]. }
  set (r := rateOrDefault table (start + Z.of_nat k)) in *.
  assert (E : r / 100 == r * (1 # 100)) by field.
  apply Qmult_lt_0_compat; [exact IH | lra].
Qed.

(** X30.  Purchasing power stays positive: when every rate of the table is
    above -100 (percent) and the amount is positive, a result that is
    produced has a positive adjusted amount and only positive amounts in its
    breakdown. *)
Theorem purchasing_power_stays_positive (table : gmap Z Q) (currentYear : Z)
    (Math_pow_root : Q -> Z -> option Q) (formData : FormData)
    (res : PurchasingPowerResult) :
  (forall year rate, table !! year = Some rate -> -100 < rate) ->
  0 < amount formData ->
  calculatePurchasingPower table currentYear Math_pow_root formData
    = Some res ->
  0 < adjustedAmount res /\
  forall entry, entry ∈ yearlyBreakdown res -> 0 < entryAmount entry.
Proof.
  intros Htable Hamount Hres.
  destruct (Z_lt_le_dec currentYear (validStartYearOf table formData))
    as [Hlt | Hle].
  - apply (PurchasingPowerMore.purchasing_power_fails_aux table currentYear
             Math_pow_root formData) in Hlt. congruence.
  - rewrite (PurchasingPowerMore.calculatePurchasingPower_clamped
               table currentYear Math_pow_root formData Hle) in Hres.
    apply (inj Some) in Hres. subst res.
    cbn [adjustedAmount yearlyBreakdown].
    split; [apply amountAt_pos; assumption|].
    intros entry Hin. apply list_elem_of_lookup_1 in Hin as [k Hk].
    apply lookup_map_seq_Some in Hk as [_ ->]. cbn [entryAt entryAmount].
    apply amountAt_pos; assumption.
Qed.

Lemma ukInflationData_above_minus_100 (year : Z) (rate : Q) :
  ukInflationData !! year = Some rate -> -100 < rate.
Proof.
  intro Hlook. apply elem_of_list_to_map_2 in Hlook.
  assert (Hall : Forall (fun row : Z * Q => -100 < snd row) ukInflationRows).
  { unfold ukInflationRows. repeat (constructor; [reflexivity|]). constructor. }
  rewrite Forall_forall in Hall. exact (Hall _ Hlook).
Qed.

Lemma purchasing_power_stays_positive_witness :
  exists res,
    0 < 1000 /\
    calculatePurchasingPower ukInflationData 2026 (fun _ _ => None)
      {| amount := 1000; startYear := 2008; endYear := 2010 |} = Some res /\
    0 < adjustedAmount res.
Proof.
  eexists. split; [reflexivity|]. split; [vm_compute; reflexivity|].
  refine (proj1 (purchasing_power_stays_positive ukInflationData 2026
                   (fun _ _ => None)
                   {| amount := 1000; startYear := 2008; endYear := 2010 |}
                   _ ukInflationData_above_minus_100 _ _)).
  - reflexivity.
  - vm_compute. reflexivity.
Defined.

End SimulatorAndWalkMore.

(** * Double precision: where rounding decides *)

(** ** Facts on the operations *)

Module Binary64Facts.
Import SpecFloat Binary64.

(** Nothing divided by a zero is a finite number. *)
Lemma fdiv_by_zero (x : double) (s : bool) :
  is_finite (fdiv x (S754_zero s)) = false.
Proof. destruct x; reflexivity. Qed.












End Binary64Facts.

(** ** Mortgage payment in doubles *)

Module Mortgage64Facts.
Import SpecFloat Binary64 Mortgage64 Binary64Facts.




(** X3.  With a term of 0 years [calculateMonthlyPayment] never returns a
    finite number, whatever the loan amount and the rate: at a rate [<= 0]
    it divides by 0 periods, and otherwise by [Math.pow(1 + r, 0) - 1],
    which is 0. *)
Theorem zero_term_payment_not_finite (P rate : double) :
  is_finite (calculateMonthlyPayment P rate 0) = false.
Proof.
  unfold calculateMonthlyPayment.
  change (numberOfPaymentsOf 0) with 0%Z.
  change (Math_pow (fadd (ofZ 1) (monthlyRateOf rate)) 0) with (ofZ 1).
  change (fsub (ofZ 1) (ofZ 1)) with (S754_zero false).
  change (ofZ 0) with (S754_zero false).
  destruct (fleb (monthlyRateOf rate) (S754_zero false));
    apply fdiv_by_zero.
Qed.



End Mortgage64Facts.

(** ** Pension totals in doubles *)

Module Pension64Facts.
Import SpecFloat Binary64 Pension64.

(** C10, the claim as first stated.  For the form's initial state the
    final pension value is above the sum of the three reported totals, added
    exactly, and differs from their sum as the doubles add them. *)
Lemma default_projection_totals_do_not_add_up :
  exists res final own employer growth,
    calculateProjection initialFormData = Some res /\
    valueOf (finalPensionNominal res) = Some final /\
    valueOf (totalContributions res) = Some own /\
    valueOf (totalEmployerContributions res) = Some employer /\
    valueOf (totalInvestmentGrowth res) = Some growth /\
    own + employer + growth < final /\
    feqb (finalPensionNominal res)
         (fadd (fadd (totalContributions res)
                     (totalEmployerContributions res))
               (totalInvestmentGrowth res)) = false.
Proof.
  do 5 eexists.
  split; [vm_compute; reflexivity|].
  split; [vm_compute; reflexivity|].
  split; [vm_compute; reflexivity|].
  split; [vm_compute; reflexivity|].
  split; [vm_compute; reflexivity|].
  split; [vm_compute; reflexivity|].
  vm_compute; reflexivity.
Qed.

End Pension64Facts.
